(** * ilp-kit: the payments controller (api/actions/send.js)

    A shallow embedding of [PaymentsController]: the four route handlers
    [getHistory], [putResource], [quote] and [setup], the Payment model
    objects they build, and the table they are saved to.

    The controller is produced by [PaymentsControllerFactory], which
    receives its collaborators (utils, spsp, the ledger behind it, the
    database) as arguments.  The embedding keeps that shape: a record
    [Collaborators] is passed to every handler.  A collaborator answers
    from a state of its own, of an arbitrary type [X], so the theorems hold
    whatever the ledger, the resolver or the database driver do. *)

From Stdlib Require Import ZArith String Ascii List Lia.
From stdpp Require Import base option list strings gmap.

Local Open Scope string_scope.

(** ** JavaScript values used by the controller *)

(** [String.prototype.toLowerCase], on the ASCII letters.  The controller
    applies it to a string that has passed the Uuid check only. *)
Definition lower_ascii (c : ascii) : ascii :=
  let n := nat_of_ascii c in
  if (65 <=? n)%nat && (n <=? 90)%nat then ascii_of_nat (n + 32) else c.

Fixpoint toLowerCase (s : string) : string :=
  match s with
  | EmptyString => EmptyString
  | String c r => String (lower_ascii c) (toLowerCase r)
  end.

(** A property that was never assigned reads [undefined]: [None]. *)
Definition is_defined {A} (o : option A) : bool :=
  match o with Some _ => true | None => false end.

(** ** Errors *)

(** The failures a request can end with: those the specification names,
    the one [request.validateUriParameter] raises, and any other exception
    (a database driver error, for instance). *)
Inductive Error : Type :=
  | InvalidDestinationError
  | DestinationUnreachableError
  | InvalidQuoteRequestError
  | QuoteUnavailableError
  | InvalidLedgerAccountError
  | LedgerInsufficientFundsError
  | InvalidUriParameterError
  | OtherError (msg : string).

(** ** Data model *)

Module User.
Record t : Type := mk { id : Z; username : string }.

(** Modelled from the spec: [User.findOne({where: {username: name}})] of
    the user model, which is not among the sources: the lookup of the
    destination user, the first user of that name if there is one. *)
Definition findOne (name : string) (table : list t) : option t :=
  snd <$> list_find (λ u, username u = name) table.
End User.

Inductive PaymentState : Type := pending | success | failed.

Global Instance PaymentState_eq_dec : EqDecision PaymentState.
Proof. solve_decision. Defined.

Module Payment.
(** The columns of the payments table; a column that was never set is
    [None]. *)
Record t : Type := mk {
  id : option string;
  source_user : option Z;
  source_account : option string;
  destination_user : option Z;
  destination_account : option string;
  source_amount : option string;
  destination_amount : option string;
  transfer : option string;
  message : option string;
  execution_condition : option string;
  state : option PaymentState
}.

(** [new Payment()]: no column set. *)
Definition new : t :=
  mk None None None None None None None None None None None.

(** One property of [data] laid over the same property of the object. *)
Definition over {A} (new_value old_value : option A) : option A :=
  match new_value with
  | Some v => Some v
  | None => old_value
  end.

(** Modelled from the spec: [setDataExternal] of the model base class,
    which is not among the sources.  The specification calls the update
    a merge: every property that [data] defines replaces the object's,
    every other property of the object is kept. *)
Definition setDataExternal (data p : t) : t :=
  mk (over (id data) (id p))
     (over (source_user data) (source_user p))
     (over (source_account data) (source_account p))
     (over (destination_user data) (destination_user p))
     (over (destination_account data) (destination_account p))
     (over (source_amount data) (source_amount p))
     (over (destination_amount data) (destination_amount p))
     (over (transfer data) (transfer p))
     (over (message data) (message p))
     (over (execution_condition data) (execution_condition p))
     (over (state data) (state p)).

(** A model object in the controller's hands: its properties, and the
    row of the table it was read from ([None] for an object made with
    [new Payment()] that has not been written yet). *)
Record instance : Type := Instance { row : option nat; fields : t }.

Definition has_condition (c : string) (p : t) : Prop :=
  execution_condition p = Some c.

Global Instance has_condition_dec c p : Decision (has_condition c p).
Proof. unfold has_condition. apply _. Defined.

(** Modelled from the spec: [Payment.findOne({where: {execution_condition:
    c}})] of the persistence layer, which is not among the sources: the
    first row with that condition, if there is one. *)
Definition findOne (c : string) (table : list t) : option instance :=
  (λ ip, Instance (Some (fst ip)) (snd ip)) <$> list_find (has_condition c) table.

(** Modelled from the spec: [save()] of the persistence layer: an object
    read from the table is written back to its row (update in place), a
    new object becomes a new row. *)
Definition save (obj : instance) (table : list t) : list t :=
  match row obj with
  | Some i => <[i := fields obj]> table
  | None => table ++ [fields obj]
  end.

(** Modelled from the spec: [create()] of the persistence layer: the
    object becomes a new row. *)
Definition create (p : t) (table : list t) : list t := table ++ [p].

(** The number of rows with condition [c]. *)
Definition rows_with (c : string) (table : list t) : nat :=
  length (filter (has_condition c) table).
End Payment.

Inductive DestinationType : Type := LOCAL | REMOTE.

(** What [utils.parseDestination] resolves a destination string to. *)
Record ResolvedDestination : Type := {
  dtype : DestinationType;
  accountUri : string;
  ledgerHost : string
}.

(** The answer of [spsp.quote]. *)
Record Quote : Type := { sourceAmount : string; destinationAmount : string }.

(** The answer of [spsp.pay]. *)
Record Transfer : Type := { uuid : string; executionCondition : string }.

(** The answer of [spsp.createRequest]: the condition, and the other
    properties of the payment request as name/value pairs. *)
Record PaymentParams : Type := {
  condition : string;
  request_fields : list (string * string)
}.

(** The argument objects of [spsp.quote] and [spsp.pay]. *)
Record QuoteParams : Type := {
  q_source : User.t;
  q_destination : ResolvedDestination;
  q_sourceAmount : option string;
  q_destinationAmount : option string
}.

Record PayParams : Type := {
  p_source : User.t;
  p_destination : ResolvedDestination;
  p_sourceAmount : option string;
  p_destinationAmount : option string;
  p_memo : option string
}.

(** ** What a handler can do to the world *)

(** The observable steps of a request, in the order they happen. *)
Inductive Event : Type :=
  | Prepared (t : Transfer)            (* the ledger holds the transfer *)
  | Fulfilled (t : Transfer)           (* the ledger has finalized it *)
  | Looked_up (c : string)             (* Payment.findOne by condition *)
  | Saved (obj : Payment.instance)     (* dbPayment.save() *)
  | Created (p : Payment.t)            (* payment.create() *)
  | Notified (username : string) (p : Payment.t)   (* socket.payment *)
  | Logged (line : string).            (* log.debug, console.log *)

(** The database tables, the steps taken so far (oldest first) and the
    state of everything outside the wallet (ledgers, connectors, the
    database driver), of which nothing is assumed. *)
Record World (X : Type) : Type := {
  payments : list Payment.t;
  users : list User.t;
  events : list Event;
  outside : X
}.
Arguments payments {X} _.
Arguments users {X} _.
Arguments events {X} _.
Arguments outside {X} _.
Arguments Build_World {X} _ _ _ _.

(** A call to the outside: it may change the outside and either throws or
    answers. *)
Definition Call (X A : Type) : Type := X → X * (Error + A).

(** A generator of the controller: each [yield] is a bind; a thrown error
    ends the generator and keeps what was done to the world before. *)
Definition M (X A : Type) : Type := World X → World X * (Error + A).

Global Instance M_ret {X} : MRet (M X) := λ A a w, (w, inr a).

Global Instance M_bind {X} : MBind (M X) := λ A B f m w,
  match m w with
  | (w', inl e) => (w', inl e)
  | (w', inr a) => f a w'
  end.

Definition throw {X A} (e : Error) : M X A := λ w, (w, inl e).

(** [try { m } catch (e) { h e }] *)
Definition try_catch {X A} (m : M X A) (h : Error → M X A) : M X A := λ w,
  match m w with
  | (w', inl e) => h e w'
  | (w', inr a) => (w', inr a)
  end.

Definition call {X A} (f : Call X A) : M X A := λ w,
  let (x', r) := f (outside w) in
  (Build_World (payments w) (users w) (events w) x', r).

Definition emit {X} (e : Event) : M X () := λ w,
  (Build_World (payments w) (users w) (events w ++ [e]) (outside w), inr ()).

Definition get_payments {X} : M X (list Payment.t) := λ w, (w, inr (payments w)).

Definition set_payments {X} (table : list Payment.t) : M X () := λ w,
  (Build_World table (users w) (events w) (outside w), inr ()).

Definition get_users {X} : M X (list User.t) := λ w, (w, inr (users w)).

(** The world a computation leaves, and what it returned or threw. *)
Definition world_after {X A} (m : M X A) (w : World X) : World X := fst (m w).
Definition outcome {X A} (m : M X A) (w : World X) : Error + A := snd (m w).

(** ** The collaborators handed to [PaymentsControllerFactory] *)

Record Collaborators (X : Type) : Type := {
  (** [request.validateUriParameter(name, value, 'Uuid')] of
      five-bells-shared: whether the value has the Uuid syntax. *)
  isUuid : string → bool;
  (** [utils.parseDestination({destination})] *)
  parseDestination : option string → Call X ResolvedDestination;
  (** the ledger behind [spsp.pay]: hold a transfer under a condition,
      then finalize it *)
  ledger_prepare : PayParams → Call X Transfer;
  ledger_fulfill : Transfer → Call X ();
  (** the quoting endpoint of a remote receiver, behind [spsp.quote] *)
  remote_quote : QuoteParams → Call X Quote;
  (** [spsp.createRequest(destinationUser, destinationAmount)] *)
  createRequest : User.t → option string → Call X PaymentParams;
  (** the database driver accepting or refusing a new payments row *)
  db_insert : list Payment.t → Payment.t → Call X ()
}.
Arguments isUuid {X} _ _.
Arguments parseDestination {X} _ _ _.
Arguments ledger_prepare {X} _ _ _.
Arguments ledger_fulfill {X} _ _ _.
Arguments remote_quote {X} _ _ _.
Arguments createRequest {X} _ _ _ _.
Arguments db_insert {X} _ _ _ _.

(** ** Requests and responses *)

(** What a handler assigns to [this.status] and [this.body]; [None] where
    it assigns nothing. *)
Record Response (B : Type) : Type := { status : option nat; body : option B }.
Arguments status {B} _.
Arguments body {B} _.
Arguments Build_Response {B} _ _.

(** The payment object that [Payment.createBodyParser()] builds from the
    body of [PUT /payments/:id], with the properties the handler touches. *)
Record PaymentBody : Type := {
  b_id : option string;
  b_source_user : option Z;
  b_destination : option string;
  b_sourceAmount : option string;
  b_destinationAmount : option string;
  b_message : option string
}.

Record PutRequest : Type := {
  params_id : string;            (* this.params.id *)
  put_user : User.t;             (* this.req.user, set by Auth.checkAuth *)
  put_body : PaymentBody         (* this.body *)
}.

(** The status [putResource] assigns, and the request's payment object as
    the handler leaves it. *)
Record PutResponse : Type := { put_status : option nat; put_payment : PaymentBody }.

Record QuoteRequest : Type := {
  quote_user : User.t;                        (* this.req.user *)
  quote_destination : option string;          (* this.body.destination *)
  quote_source_amount : option string;        (* this.body.source_amount *)
  quote_destination_amount : option string    (* this.body.destination_amount *)
}.

Record SetupRequest : Type := {
  params_username : string;            (* this.params.username *)
  sender_identifier : option string;   (* this.body.sender_identifier *)
  memo : option string;                (* this.body.memo *)
  amount : option string               (* this.body.amount *)
}.

(** [this.query.page] and [this.query.limit], read as numbers. *)
Record HistoryRequest : Type := {
  history_user : User.t;     (* this.req.user *)
  page : Z;
  limit : Z
}.

(** A JavaScript number that is an integer, or one of the two values a
    division by zero gives. *)
Inductive JsNumber : Type := Finite (z : Z) | PlusInfinity | NaN.

(** [Math.ceil(count / limit)] for integers [count >= 0] and [limit].  The
    quotient of two integers below 2^53 is rounded to a double whose
    ceiling is the ceiling of the exact quotient. *)
Definition Math_ceil_div (count limit : Z) : JsNumber :=
  if (limit =? 0)%Z then (if (count =? 0)%Z then NaN else PlusInfinity)
  else Finite (- ((- count) / limit))%Z.

Record History : Type := { history_list : list Payment.t; totalPages : JsNumber }.

Module PaymentQuery.
Record page_of_rows : Type := { rows : list Payment.t; count : Z }.

(** The payments of a user: the rows that name the user as source or as
    destination. *)
Definition concerns (u : User.t) (p : Payment.t) : bool :=
  bool_decide (Payment.source_user p = Some (User.id u))
  || bool_decide (Payment.destination_user p = Some (User.id u)).

(** Modelled from the spec: [Payment.getUserPayments(user, page, limit)]
    of the persistence layer, which is not among the sources: a read of
    the user's payments by offset and limit that returns the rows of
    the page and the total count. *)
Definition getUserPayments (u : User.t) (page limit : Z) (table : list Payment.t)
  : page_of_rows :=
  let mine := List.filter (concerns u) table in
  {| rows := take (Z.to_nat limit) (drop (Z.to_nat (limit * (page - 1))) mine);
     count := Z.of_nat (length mine) |}.
End PaymentQuery.

(** ** The controller *)

Section PaymentsController.
Context {X : Type} (env : Collaborators X).

(** [request.validateUriParameter('id', value, 'Uuid')] *)
Definition validateUriParameter (value : string) : M X () :=
  if isUuid env value then mret () else throw InvalidUriParameterError.

(** Modelled from the spec: [spsp.pay] (lib/spsp is not among the
    sources), the Conditional Transfer Executor: the transfer is
    prepared on the ledger under its execution condition, then
    fulfilled; a failure of either step is thrown. *)
Definition spsp_pay (p : PayParams) : M X Transfer :=
  t ← call (ledger_prepare env p);
  emit (Prepared t);;
  call (ledger_fulfill env t);;
  emit (Fulfilled t);;
  mret t.

(** Modelled from the spec: [spsp.quote] (lib/spsp is not among the
    sources), the Quote Engine: exactly one amount must be supplied; on
    the wallet's own ledger the other amount is the same, for a remote
    receiver it is asked from the receiver's quoting endpoint. *)
Definition spsp_quote (p : QuoteParams) : M X Quote :=
  match q_sourceAmount p, q_destinationAmount p with
  | Some a, None | None, Some a =>
      match dtype (q_destination p) with
      | LOCAL => mret {| sourceAmount := a; destinationAmount := a |}
      | REMOTE => call (remote_quote env p)
      end
  | Some _, Some _ | None, None => throw InvalidQuoteRequestError
  end.

(** [yield Payment.findOne({where: {execution_condition: c}})] *)
Definition Payment_findOne (c : string) : M X (option Payment.instance) :=
  table ← get_payments;
  emit (Looked_up c);;
  mret (Payment.findOne c table).

(** [dbPayment.save()], landing at once.  The source starts the write
    and does not wait for it; [putResource_started] and [lands] below
    keep the start and the landing apart. *)
Definition Payment_save (obj : Payment.instance) : M X () :=
  table ← get_payments;
  set_payments (Payment.save obj table);;
  emit (Saved obj).

(** [yield payment.create()]: throws when the database refuses the row. *)
Definition Payment_create (p : Payment.t) : M X () :=
  table ← get_payments;
  call (db_insert env table p);;
  set_payments (Payment.create p table);;
  emit (Created p).

(** Modelled from the spec: [socket.payment(username, payment)] (lib/socket
    is not among the sources), the Notification Publisher: the payment is
    announced to the sessions of [username], and nothing comes back. *)
Definition socket_payment (username : string) (obj : Payment.instance) : M X () :=
  emit (Notified username (Payment.fields obj)).

(** [GET /payments] *)
Definition getHistory (req : HistoryRequest) : M X (Response History) :=
  let page := page req in
  let limit := limit req in
  table ← get_payments;
  let payments := PaymentQuery.getUserPayments (history_user req) page limit table in
  mret {| status := None;
          body := Some {| history_list := PaymentQuery.rows payments;
                          totalPages := Math_ceil_div (PaymentQuery.count payments) limit |} |}.

(** The argument of [spsp.pay] in [putResource]. *)
Definition put_payParams (req : PutRequest) (destination : ResolvedDestination)
  : PayParams :=
  {| p_source := put_user req;
     p_destination := destination;
     p_sourceAmount := b_sourceAmount (put_body req);
     p_destinationAmount := b_destinationAmount (put_body req);
     p_memo := b_message (put_body req) |}.

(** The object [putResource] hands to [setDataExternal]. *)
Definition put_paymentObj (req : PutRequest) (destination : ResolvedDestination)
    (transfer : Transfer) : Payment.t :=
  {| Payment.id := None;
     Payment.source_user := Some (User.id (put_user req));
     Payment.source_account := None;
     Payment.destination_user := None;
     Payment.destination_account := Some (accountUri destination);
     Payment.source_amount := b_sourceAmount (put_body req);
     Payment.destination_amount := b_destinationAmount (put_body req);
     Payment.transfer := Some (uuid transfer);
     Payment.message := b_message (put_body req);
     Payment.execution_condition := Some (executionCondition transfer);
     Payment.state := Some success |}.

(** [PUT /payments/:id] *)
Definition putResource (req : PutRequest) : M X PutResponse :=
  let id := params_id req in
  validateUriParameter id;;
  let id := toLowerCase id in
  let payment := put_body req in
  (* payment.id = id; payment.source_user = this.req.user.id *)
  let payment :=
    {| b_id := Some id;
       b_source_user := Some (User.id (put_user req));
       b_destination := b_destination payment;
       b_sourceAmount := b_sourceAmount payment;
       b_destinationAmount := b_destinationAmount payment;
       b_message := b_message payment |} in
  destination ← call (parseDestination env (b_destination payment));
  (* Interledger payment *)
  transfer ← spsp_pay (put_payParams req destination);
  (* If the payment is local the receiver already created it in the db *)
  found ← Payment_findOne (executionCondition transfer);
  let dbPayment := default (Payment.Instance None Payment.new) found in
  let dbPayment :=
    Payment.Instance (Payment.row dbPayment)
      (Payment.setDataExternal (put_paymentObj req destination transfer)
         (Payment.fields dbPayment)) in
  Payment_save dbPayment;;
  (* Notify the clients *)
  socket_payment (User.username (put_user req)) dbPayment;;
  emit (Logged ("Ledger transfer payment ID " ++ id));;
  mret {| put_status := Some 200; put_payment := payment |}.

(** [POST /payments/quote] *)
Definition quote (req : QuoteRequest) : M X (Response Quote) :=
  destination ← call (parseDestination env (quote_destination req));
  q ← spsp_quote {| q_source := quote_user req;
                    q_destination := destination;
                    q_sourceAmount := quote_source_amount req;
                    q_destinationAmount := quote_destination_amount req |};
  mret {| status := None; body := Some q |}.

(** The object [setup] hands to [setDataExternal]. *)
Definition setup_paymentObj (req : SetupRequest) (destinationUser : User.t)
    (paymentParams : PaymentParams) : Payment.t :=
  {| Payment.id := None;
     Payment.source_user := None;
     Payment.source_account := sender_identifier req;
     Payment.destination_user := Some (User.id destinationUser);
     Payment.destination_account := None;
     Payment.source_amount := None;
     Payment.destination_amount := amount req;
     Payment.transfer := None;
     Payment.message := memo req;
     Payment.execution_condition := Some (condition paymentParams);
     Payment.state := Some pending |}.

(** [POST /receivers/:username], for a request that has a body and a
    user lookup that answers: a missing body or a failing lookup would
    throw before the [try], and is not modelled. *)
Definition setup (req : SetupRequest) : M X (Response PaymentParams) :=
  let destinationAmount := amount req in
  (* Get the user from the db. We need the id in the payment *)
  table ← get_users;
  match User.findOne (params_username req) table with
  | None =>
      (* Requested user doesn't exist *)
      mret {| status := Some 404; body := None |}
  | Some destinationUser =>
      paymentParams ← call (createRequest env destinationUser destinationAmount);
      let paymentObj := setup_paymentObj req destinationUser paymentParams in
      (* Create the payment object *)
      let payment := Payment.setDataExternal paymentObj Payment.new in
      try_catch
        (Payment_create payment;;
         mret {| status := None; body := Some paymentParams |})
        (λ e,
           emit (Logged "payments:299 woops");;
           (* TODO handle *)
           mret {| status := None; body := None |})
  end.
End PaymentsController.

(** ** Runs of the controller *)

(** A request to one of the four routes. *)
Inductive Request : Type :=
  | GetHistory (r : HistoryRequest)
  | PostQuote (r : QuoteRequest)
  | PutPayment (r : PutRequest)
  | PostReceiver (r : SetupRequest).

Section Runs.
Context {X : Type} (env : Collaborators X).

(** The world after a request was handled, whatever it answered. *)
Definition handle (r : Request) (w : World X) : World X :=
  match r with
  | GetHistory r => world_after (getHistory r) w
  | PostQuote r => world_after (quote env r) w
  | PutPayment r => world_after (putResource env r) w
  | PostReceiver r => world_after (setup env r) w
  end.

(** Requests handled one after the other. *)
Fixpoint run_requests (rs : list Request) (w : World X) : World X :=
  match rs with
  | [] => w
  | r :: rest => run_requests rest (handle r w)
  end.

(** The steps a computation adds to the world's record. *)
Definition new_events {A} (m : M X A) (w : World X) : list Event :=
  drop (length (events w)) (events (world_after m w)).

(** [putResource] up to the answer of [spsp.pay]: the destination and
    the transfer the request resolves to. *)
Definition put_resolves (req : PutRequest) : M X (ResolvedDestination * Transfer) :=
  validateUriParameter env (params_id req);;
  destination ← call (parseDestination env (b_destination (put_body req)));
  transfer ← spsp_pay env (put_payParams req destination);
  mret (destination, transfer).

(** The object [putResource] saves: the row found by the transfer's
    condition, or a new object, with the execute path's data laid over. *)
Definition put_dbPayment (req : PutRequest) (destination : ResolvedDestination)
    (transfer : Transfer) (table : list Payment.t) : Payment.instance :=
  let found := default (Payment.Instance None Payment.new)
                       (Payment.findOne (executionCondition transfer) table) in
  Payment.Instance (Payment.row found)
    (Payment.setDataExternal (put_paymentObj req destination transfer)
       (Payment.fields found)).

(** The execution of [req] in [w] goes through with a transfer whose
    condition is [c]. *)
Definition resolves_to (req : PutRequest) (w : World X) (c : string) : Prop :=
  ∃ d t, outcome (put_resolves req) w = inr (d, t) ∧ executionCondition t = c.

(** Executions one after the other. *)
Fixpoint run_puts (reqs : list PutRequest) (w : World X) : World X :=
  match reqs with
  | [] => w
  | r :: rest => run_puts rest (world_after (putResource env r) w)
  end.

(** One of the executions [reqs], run from [w], went through with
    condition [c]. *)
Fixpoint executed_with (c : string) (reqs : list PutRequest) (w : World X) : Prop :=
  match reqs with
  | [] => False
  | r :: rest =>
      resolves_to r w c ∨ executed_with c rest (world_after (putResource env r) w)
  end.
End Runs.

(** The row an object is written to by [save]. *)
Definition written_row (obj : Payment.instance) (table : list Payment.t) : nat :=
  match Payment.row obj with
  | Some i => i
  | None => length table
  end.

(** Every condition has at most one row. *)
Definition one_row_per_condition (table : list Payment.t) : Prop :=
  ∀ c, (Payment.rows_with c table ≤ 1)%nat.

Definition is_prepare (e : Event) : bool :=
  match e with Prepared _ => true | _ => false end.
Definition is_fulfill (e : Event) : bool :=
  match e with Fulfilled _ => true | _ => false end.
Definition is_save (e : Event) : bool :=
  match e with Saved _ | Created _ => true | _ => false end.
Definition is_notify (e : Event) : bool :=
  match e with Notified _ _ => true | _ => false end.

(** In the record [l], every [Q] step comes after a [P] step, and after
    every [P] step. *)
Definition precedes (P Q : Event → bool) (l : list Event) : Prop :=
  ∀ i e, l !! i = Some e → Q e = true →
    (∃ j e', (j < i)%nat ∧ l !! j = Some e' ∧ P e' = true) ∧
    (∀ j e', l !! j = Some e' → P e' = true → (j < i)%nat).

(** Between two states of the table, a row changes state only from
    pending, and only to success or failed. *)
Definition only_leaves_pending (before after : list Payment.t) : Prop :=
  ∀ i p p', before !! i = Some p → after !! i = Some p' →
    Payment.state p' ≠ Payment.state p →
    Payment.state p = Some pending ∧
    (Payment.state p' = Some success ∨ Payment.state p' = Some failed).

(** Between two states of the table, every row that was there is still
    there, in the state it had or in success, and every row that was added
    is in pending or in success. *)
Definition writes_success_or_new_pending (before after : list Payment.t) : Prop :=
  (∀ i p, before !! i = Some p →
     ∃ p', after !! i = Some p' ∧
           (Payment.state p' = Payment.state p ∨ Payment.state p' = Some success)) ∧
  (∀ i p', before !! i = None → after !! i = Some p' →
     Payment.state p' = Some pending ∨ Payment.state p' = Some success).

(** The id of a stored row is the id parameter of the request, in lower
    case. *)
Definition stored_id_from_request (req : PutRequest) (stored : Payment.t) : Prop :=
  Payment.id stored = Some (toLowerCase (params_id req)).

(** The receiver-side columns of [final] are those of [written]. *)
Definition keeps_receiver_fields (written final : Payment.t) : Prop :=
  Payment.source_account final = Payment.source_account written ∧
  Payment.destination_user final = Payment.destination_user written ∧
  Payment.destination_amount final = Payment.destination_amount written ∧
  Payment.message final = Payment.message written.

(** Both amounts of a quote request are supplied, or neither is. *)
Definition both_or_neither (source_amount destination_amount : option string) : Prop :=
  is_defined source_amount = is_defined destination_amount.

(** ** A wallet to run the controller on *)

Definition is_hex (c : ascii) : bool :=
  let n := nat_of_ascii c in
  ((48 <=? n) && (n <=? 57) || (65 <=? n) && (n <=? 70) || (97 <=? n) && (n <=? 102))%nat.

(** [shape] says, character by character, where a hexadecimal digit
    ([true]) and where a dash ([false]) is expected. *)
Fixpoint has_shape (shape : list bool) (s : string) : bool :=
  match shape, s with
  | [], EmptyString => true
  | h :: shape', String c r =>
      (if h then is_hex c else Ascii.eqb c "-") && has_shape shape' r
  | _, _ => false
  end.

Definition uuid_syntax (s : string) : bool :=
  has_shape (replicate 8 true ++ [false] ++ replicate 4 true ++ [false] ++
             replicate 4 true ++ [false] ++ replicate 4 true ++ [false] ++
             replicate 12 true) s.

Definition account_of (name : string) : string :=
  "https://wallet.example/ledger/accounts/" ++ name.

(** A wallet whose every destination is an account of its own ledger,
    whose ledger accepts every transfer and derives the condition from the
    receiving account, and whose database accepts every row.  The outside
    has no state. *)
Definition wallet : Collaborators () := {|
  isUuid := uuid_syntax;
  parseDestination := λ d x,
    (x, match d with
        | Some s => inr {| dtype := LOCAL; accountUri := account_of s;
                           ledgerHost := "wallet.example" |}
        | None => inl InvalidDestinationError
        end);
  ledger_prepare := λ p x,
    (x, inr {| uuid := "3d4c9c8e-204a-4213-9e91-88b64dad8604";
               executionCondition := "cc:0:3:" ++ accountUri (p_destination p) |});
  ledger_fulfill := λ t x, (x, inr ());
  remote_quote := λ p x, (x, inl QuoteUnavailableError);
  createRequest := λ u a x,
    (x, inr {| condition := "cc:0:3:" ++ account_of (User.username u);
               request_fields := [("address", account_of (User.username u))] |});
  db_insert := λ table p x, (x, inr ())
|}.

(** The same wallet with a database that refuses every new row. *)
Definition wallet_db_down : Collaborators () := {|
  isUuid := isUuid wallet;
  parseDestination := parseDestination wallet;
  ledger_prepare := ledger_prepare wallet;
  ledger_fulfill := ledger_fulfill wallet;
  remote_quote := remote_quote wallet;
  createRequest := createRequest wallet;
  db_insert := λ table p x, (x, inl (OtherError "SequelizeConnectionError"))
|}.

Definition alice : User.t := User.mk 1 "alice".
Definition bob : User.t := User.mk 2 "bob".

Definition empty_wallet : World () :=
  Build_World [] [alice; bob] [] ().

(** Bob asks for 10; Alice pays Bob 12 with a message of her own and a
    source user in the body that is not hers. *)
Definition bob_asks : SetupRequest :=
  {| params_username := "bob"; sender_identifier := Some "alice@wallet.example";
     memo := Some "invoice 7"; amount := Some "10" |}.

Definition alice_pays : PutRequest :=
  {| params_id := "9EFA70EC-08B9-11E6-B512-3E1D05DEFE78";
     put_user := alice;
     put_body := {| b_id := None; b_source_user := Some 2%Z;
                    b_destination := Some "bob";
                    b_sourceAmount := None;
                    b_destinationAmount := Some "12";
                    b_message := Some "thanks" |} |}.

(** What Bob's request is answered with, and the condition in it. *)
Definition bob_condition : string := "cc:0:3:" ++ account_of "bob".

Definition bob_request : PaymentParams :=
  {| condition := bob_condition;
     request_fields := [("address", account_of "bob")] |}.

(** The wallet after Bob's request, and after Alice's payment of it. *)
Definition after_request : World () :=
  world_after (setup wallet bob_asks) empty_wallet.

Definition after_payment : World () :=
  world_after (putResource wallet alice_pays) after_request.

(** The answer to Alice's payment. *)
Definition alice_paid : PutResponse :=
  {| put_status := Some 200;
     put_payment := {| b_id := Some "9efa70ec-08b9-11e6-b512-3e1d05defe78";
                       b_source_user := Some 1%Z;
                       b_destination := Some "bob";
                       b_sourceAmount := None;
                       b_destinationAmount := Some "12";
                       b_message := Some "thanks" |} |}.

Definition carol_asks : SetupRequest :=
  {| params_username := "carol"; sender_identifier := Some "alice@wallet.example";
     memo := None; amount := Some "5" |}.

(** A payment to Bob that another part of the wallet has marked failed. *)
Definition failed_payment : Payment.t :=
  {| Payment.id := Some "15a3cbb8-d0f3-410e-8a59-14e8dee14abd";
     Payment.source_user := Some 1%Z;
     Payment.source_account := Some "alice@wallet.example";
     Payment.destination_user := Some 2%Z;
     Payment.destination_account := Some (account_of "bob");
     Payment.source_amount := None;
     Payment.destination_amount := Some "12";
     Payment.transfer := None;
     Payment.message := None;
     Payment.execution_condition := Some ("cc:0:3:" ++ account_of "bob");
     Payment.state := Some failed |}.

Definition wallet_with_failed : World () :=
  Build_World [failed_payment] [alice; bob] [] ().

(** The row of Bob's request as the database holds it, under an id the
    database gave it. *)
Definition pending_payment : Payment.t :=
  {| Payment.id := Some "e1d3c588-807c-4d4f-b25c-61842b5ead6d";
     Payment.source_user := None;
     Payment.source_account := Some "alice@wallet.example";
     Payment.destination_user := Some 2%Z;
     Payment.destination_account := None;
     Payment.source_amount := None;
     Payment.destination_amount := Some "10";
     Payment.transfer := None;
     Payment.message := Some "invoice 7";
     Payment.execution_condition := Some ("cc:0:3:" ++ account_of "bob");
     Payment.state := Some pending |}.

Definition wallet_with_pending : World () :=
  Build_World [pending_payment] [alice; bob] [] ().

Definition alice_history : HistoryRequest :=
  {| history_user := alice; page := 1; limit := 2 |}.

Definition quote_both : QuoteRequest :=
  {| quote_user := alice; quote_destination := Some "bob";
     quote_source_amount := Some "10"; quote_destination_amount := Some "10" |}.

Definition quote_source : QuoteRequest :=
  {| quote_user := alice; quote_destination := Some "bob";
     quote_source_amount := Some "10"; quote_destination_amount := None |}.

(** ** The write that is not awaited *)

(** [putResource] calls [dbPayment.save()] without [yield]: the handler
    goes on, answers and ends while the write is on its way to the
    database, and nothing in the handler sees whether or when it lands.
    [putResource] above is the run in which the write lands at once.
    Here the two are apart: the handler up to its answer, with the write
    only started, and the landing of a write. *)
Section Unawaited.
Context {X : Type} (env : Collaborators X).

(** [PUT /payments/:id] up to its answer: the answer, and the object whose
    write was started. *)
Definition putResource_started (req : PutRequest)
  : M X (PutResponse * Payment.instance) :=
  let id := params_id req in
  validateUriParameter env id;;
  let id := toLowerCase id in
  let payment := put_body req in
  let payment :=
    {| b_id := Some id;
       b_source_user := Some (User.id (put_user req));
       b_destination := b_destination payment;
       b_sourceAmount := b_sourceAmount payment;
       b_destinationAmount := b_destinationAmount payment;
       b_message := b_message payment |} in
  destination ← call (parseDestination env (b_destination payment));
  transfer ← spsp_pay env (put_payParams req destination);
  found ← Payment_findOne (executionCondition transfer);
  let dbPayment := default (Payment.Instance None Payment.new) found in
  let dbPayment :=
    Payment.Instance (Payment.row dbPayment)
      (Payment.setDataExternal (put_paymentObj req destination transfer)
         (Payment.fields dbPayment)) in
  (* dbPayment.save(): started *)
  emit (Saved dbPayment);;
  socket_payment (User.username (put_user req)) dbPayment;;
  emit (Logged ("Ledger transfer payment ID " ++ id));;
  mret ({| put_status := Some 200; put_payment := payment |}, dbPayment).

(** A write that was started reaches the table. *)
Definition lands (obj : Payment.instance) (w : World X) : World X :=
  Build_World (Payment.save obj (payments w)) (users w) (events w) (outside w).


End Unawaited.

(** ** Kinds of write *)

(** What the request [r] has done to the payments table: nothing; or, a
    request-setup, added a pending row; or, an execution, written a row
    [p] in success under a condition [c]: added behind the table when no
    row had the condition, put in the place of the first row that had
    it otherwise. *)
Definition written_by (r : Request) (before after : list Payment.t) : Prop :=
  after = before ∨
  match r with
  | PostReceiver _ =>
      ∃ p, after = (before ++ [p])%list ∧ Payment.state p = Some pending
  | PutPayment _ =>
      ∃ c p, Payment.state p = Some success ∧ Payment.has_condition c p ∧
        ((Payment.rows_with c before = 0%nat ∧ after = (before ++ [p])%list) ∨
         (∃ i old, before !! i = Some old ∧ Payment.has_condition c old ∧
                   Payment.rows_with c (take i before) = 0%nat ∧
                   after = <[i := p]> before))
  | GetHistory _ | PostQuote _ => False
  end.

(** The number of pages [pages] is the ceiling of [count / n]: the
    integer [t] with [(t - 1) * n < count <= t * n]. *)
Definition is_ceiling_of (pages : JsNumber) (count n : Z) : Prop :=
  ∃ t, pages = Finite t ∧ ((t - 1) * n < count ≤ t * n)%Z.

(** ** Sequences of requests *)

(** The columns of a row that no handler writes once the row is there:
    they are the same in [p] and [p']. *)
Definition same_identity (p p' : Payment.t) : Prop :=
  Payment.id p' = Payment.id p ∧
  Payment.source_account p' = Payment.source_account p ∧
  Payment.destination_user p' = Payment.destination_user p ∧
  Payment.execution_condition p' = Payment.execution_condition p.

(** A history of Alice's, then Bob's request, then Alice's payment of it. *)
Definition busy_day : list Request :=
  [GetHistory alice_history; PostReceiver bob_asks; PutPayment alice_pays;
   PostQuote quote_source; PutPayment alice_pays].

(** Alice's payment under an id that is not a Uuid, and without a
    destination. *)
Definition alice_pays_bad_id : PutRequest :=
  {| params_id := "quote"; put_user := alice; put_body := put_body alice_pays |}.

Definition alice_pays_nobody : PutRequest :=
  {| params_id := params_id alice_pays;
     put_user := alice;
     put_body := {| b_id := None; b_source_user := None; b_destination := None;
                    b_sourceAmount := Some "1"; b_destinationAmount := None;
                    b_message := None |} |}.


Definition quote_nobody : QuoteRequest :=
  {| quote_user := alice; quote_destination := None;
     quote_source_amount := Some "10"; quote_destination_amount := None |}.

Definition alice_history_no_limit : HistoryRequest :=
  {| history_user := alice; page := 1; limit := 0 |}.

(** * The send action (the first module of api/actions/send.js) *)

Module SendAction.

(** Reading a property of [undefined] throws a TypeError that names the
    property. *)
Inductive TypeError : Type := CannotReadProperty (property : string).

Section Send.
(** [V]: the values of the request body and of the session; [T]: what
    [transfer] of '../ledger' returns. *)
Context {V T : Type}.

(** [req.session.user] *)
Record SessionUser : Type := { name : option V; password : option V }.

(** [req]: the parsed body, a map from property names to values, and the
    user of the session; either is [None] when it is [undefined]. *)
Record Req : Type := {
  body : option (gmap string V);
  session_user : option SessionUser
}.

(** The [options] object handed to [transfer]. *)
Record Options : Type := {
  options_recipient : option V;
  options_amount : option V;
  options_username : option V;
  options_password : option V
}.

(** [export default function send(req)] *)
Definition send (transfer : Options → T) (req : Req) : TypeError + T :=
  match body req with
  | None => inl (CannotReadProperty "recipient")
  | Some b =>
      match session_user req with
      | None => inl (CannotReadProperty "name")
      | Some user =>
          let options :=
            {| options_recipient := b !! "recipient";
               options_amount := b !! "amount";
               options_username := name user;
               options_password := password user |} in
          inr (transfer options)
      end
  end.
End Send.

Arguments SessionUser : clear implicits.
Arguments Req : clear implicits.
Arguments Options : clear implicits.

(** A body that also carries credentials, under Alice's session. *)
Definition alice_session : SessionUser string :=
  {| name := Some "alice"; password := Some "alice" |}.

Definition send_to_bob : Req string :=
  {| body := Some (<["recipient" := "bob"]> (<["amount" := "10"]> ∅));
     session_user := Some alice_session |}.

Definition send_logged_out : Req string :=
  {| body := body send_to_bob; session_user := None |}.
End SendAction.

(** * The registration form (src/components/RegisterForm/RegisterForm.js) *)

Module RegisterForm.
Section Component.
(** [Field]: the field objects redux-form hands over; [Callback]: the
    functions among the props. *)
Context {Field Callback : Type}.

(** The value of a JSX attribute. *)
Inductive Attr : Type :=
  | AString (s : string)
  | ABool (b : bool)
  | AField (f : Field)
  | ACallback (c : Callback)
  | APresent.                       (* an attribute without a value: focus *)

(** What [render] returns: elements with attributes and children, and
    text. *)
Local Unset Elimination Schemes.
Inductive VNode : Type :=
  | Element (tag : string) (attrs : list (string * Attr)) (children : list VNode)
  | Text (s : string).
Local Set Elimination Schemes.

(** [this.props.fail] *)
Record Fail : Type := { fail_id : option string }.

Record Props : Type := {
  fields_username : Field;
  fields_password : Field;
  invalid : bool;
  pristine : bool;
  submitting : bool;
  handleSubmit : Callback → Callback;
  register : Callback;
  unmount : option Callback;        (* PropTypes.func, not required *)
  fail : option Fail                (* PropTypes.object, not required *)
}.

(** [fail && fail.id]: the id when there is a fail object with an id that
    is not the empty string. *)
Definition truthy_fail_id (p : Props) : option string :=
  match fail p with
  | Some f =>
      match fail_id f with
      | Some i => if String.eqb i EmptyString then None else Some i
      | None => None
      end
  | None => None
  end.

(** [render()].  A child that is false, undefined or empty shows nothing
    and is left out of the children. *)
Definition render (p : Props) : VNode :=
  let username := fields_username p in
  let password := fields_password p in
  Element "form" [("onSubmit", ACallback (handleSubmit p (register p)))]
    (match truthy_fail_id p with
     | Some i =>
         [Element "Alert" [("bsStyle", AString "danger")]
            (if String.eqb i "UsernameTakenError"
             then [Element "div" []
                     [Element "strong" [] [Text "Woops!"];
                      Text " Username is already taken"]]
             else [])]
     | None => []
     end ++
     [Element "div" []
        [Element "Input" [("object", AField username); ("label", AString "Username");
                          ("size", AString "lg"); ("focus", APresent)] [];
         Element "Input" [("object", AField password); ("label", AString "Password");
                          ("size", AString "lg"); ("type", AString "password")] []];
      Element "button" [("type", AString "submit");
                        ("className", AString "btn btn-complete");
                        ("disabled", ABool (pristine p || invalid p || submitting p))]
        [Element "i" [("className", AString "fa fa-sign-in")] [];
         Text (if submitting p then " Registering..." else " Register")]]).

(** [componentWillUnmount()]: the functions it calls, in order, or the
    TypeError of calling a prop that is not there. *)
Definition componentWillUnmount (p : Props) : SendAction.TypeError + list Callback :=
  match unmount p with
  | Some f => inr [f]
  | None => inl (SendAction.CannotReadProperty "unmount")
  end.

(** The node and everything below it, in document order. *)
Fixpoint descendants (v : VNode) : list VNode :=
  v :: match v with
       | Element _ _ children => flat_map descendants children
       | Text _ => []
       end.

Definition tag_of (v : VNode) : option string :=
  match v with Element t _ _ => Some t | Text _ => None end.

Definition text_of (v : VNode) : option string :=
  match v with Text s => Some s | Element _ _ _ => None end.

(** The elements of a tag, and the texts, that a node shows. *)
Definition elements (t : string) (v : VNode) : list VNode :=
  List.filter (λ d, bool_decide (tag_of d = Some t)) (descendants v).

Definition texts (v : VNode) : list string :=
  omap text_of (descendants v).

(** The value of an attribute of an element. *)
Definition attr (a : string) (v : VNode) : option Attr :=
  match v with
  | Element _ attrs _ => snd <$> List.find (λ kv, String.eqb (fst kv) a) attrs
  | Text _ => None
  end.
End Component.

Arguments Attr : clear implicits.
Arguments VNode : clear implicits.
Arguments Props : clear implicits.

(** The form after a registration under a taken name, and after another
    failure. *)
Definition taken_name : Props nat nat :=
  {| fields_username := 1%nat; fields_password := 2%nat;
     invalid := false; pristine := false; submitting := false;
     handleSubmit := S; register := 10%nat; unmount := None;
     fail := Some {| fail_id := Some "UsernameTakenError" |} |}.

Definition server_down : Props nat nat :=
  {| fields_username := 1%nat; fields_password := 2%nat;
     invalid := false; pristine := false; submitting := true;
     handleSubmit := S; register := 10%nat; unmount := Some 7%nat;
     fail := Some {| fail_id := Some "ServerError" |} |}.
End RegisterForm.

(** * Properties *)

Local Close Scope string_scope.

(** ** The payments table *)

Lemma rows_with_app c (l1 l2 : list Payment.t) :
  Payment.rows_with c (l1 ++ l2) = (Payment.rows_with c l1 + Payment.rows_with c l2)%nat.
Proof. unfold Payment.rows_with. by rewrite filter_app, length_app. Qed.

Lemma rows_with_cons c p (l : list Payment.t) :
  Payment.rows_with c (p :: l)
  = ((if decide (Payment.has_condition c p) then 1 else 0) + Payment.rows_with c l)%nat.
Proof.
  unfold Payment.rows_with. rewrite filter_cons.
  destruct (decide (Payment.has_condition c p)); reflexivity.
Qed.

Lemma rows_with_insert c (l : list Payment.t) i p p' :
  l !! i = Some p →
  (Payment.has_condition c p ↔ Payment.has_condition c p') →
  Payment.rows_with c (<[i:=p']> l) = Payment.rows_with c l.
Proof.
  revert i. induction l as [|q l IH]; intros [|i] Hi Hiff; simpl in *; try discriminate.
  - injection Hi as ->. rewrite !rows_with_cons.
    destruct (decide (Payment.has_condition c p)), (decide (Payment.has_condition c p')); tauto || reflexivity.
  - rewrite !rows_with_cons. f_equal. eauto.
Qed.

Lemma rows_with_lookup c (l : list Payment.t) i p :
  l !! i = Some p → Payment.has_condition c p → (1 ≤ Payment.rows_with c l)%nat.
Proof.
  revert i. induction l as [|q l IH]; intros [|i] Hi Hc; simpl in *; try discriminate.
  - injection Hi as ->. rewrite rows_with_cons. rewrite decide_True by done. lia.
  - rewrite rows_with_cons. specialize (IH _ Hi Hc). lia.
Qed.

Lemma rows_with_none c (l : list Payment.t) :
  Forall (λ p, ¬ Payment.has_condition c p) l → Payment.rows_with c l = 0%nat.
Proof.
  induction 1 as [|q l Hq _ IH]; [reflexivity|].
  rewrite rows_with_cons, decide_False by done. exact IH.
Qed.

Lemma findOne_Some c table obj :
  Payment.findOne c table = Some obj →
  ∃ i, Payment.row obj = Some i ∧ table !! i = Some (Payment.fields obj) ∧
       Payment.has_condition c (Payment.fields obj).
Proof.
  unfold Payment.findOne. destruct (list_find _ table) as [[i p]|] eqn:E; [|discriminate].
  intros [= <-]. apply list_find_Some in E as (? & ? & _). simpl. eauto.
Qed.

Lemma findOne_None c table :
  Payment.findOne c table = None → Payment.rows_with c table = 0%nat.
Proof.
  unfold Payment.findOne. destruct (list_find _ table) as [[i p]|] eqn:E; [discriminate|].
  intros _. apply rows_with_none. by apply list_find_None in E.
Qed.


Lemma put_dbPayment_row req d t table :
  (written_row (put_dbPayment req d t table) table ≤ length table)%nat.
Proof.
  unfold written_row, put_dbPayment.
  destruct (Payment.findOne _ table) as [obj|] eqn:E; simpl; [|lia].
  apply findOne_Some in E as (i & -> & Hi & _).
  apply lookup_lt_Some in Hi. lia.
Qed.

(** The row an object was saved to holds the object's properties. *)
Lemma save_written_row req d t table :
  let obj := put_dbPayment req d t table in
  Payment.save obj table !! written_row obj table = Some (Payment.fields obj).
Proof.
  unfold written_row, put_dbPayment, Payment.save.
  destruct (Payment.findOne _ table) as [obj|] eqn:E; simpl.
  - apply findOne_Some in E as (i & -> & Hi & _).
    apply list_lookup_insert_eq. by eapply lookup_lt_Some.
  - by rewrite lookup_app_r, Nat.sub_diag.
Qed.

(** Saving the object of an execution: a condition that had rows keeps
    their number, the transfer's condition has a row afterwards. *)
Lemma save_rows_with req d t table c :
  Payment.rows_with c (Payment.save (put_dbPayment req d t table) table)
  = if decide (c = executionCondition t)
    then Nat.max 1 (Payment.rows_with c table)
    else Payment.rows_with c table.
Proof.
  unfold put_dbPayment, Payment.save.
  destruct (Payment.findOne _ table) as [obj|] eqn:E; simpl.
  - apply findOne_Some in E as (i & -> & Hi & Hc).
    rewrite (rows_with_insert c table i (Payment.fields obj)); [|done|].
    + destruct (decide (c = executionCondition t)) as [->|]; [|done].
      pose proof (rows_with_lookup _ _ _ _ Hi Hc). lia.
    + unfold Payment.has_condition in *. simpl. rewrite Hc. done.
  - apply findOne_None in E. rewrite rows_with_app, rows_with_cons. simpl.
    unfold Payment.rows_with at 2. simpl.
    destruct (decide (c = executionCondition t)) as [->|Hne].
    + rewrite E, decide_True by done. reflexivity.
    + rewrite decide_False; [lia|]. unfold Payment.has_condition. simpl. congruence.
Qed.

(** A row that was there before is written in place: the table does not
    grow. *)
Lemma save_found_length req d t table obj :
  Payment.findOne (executionCondition t) table = Some obj →
  length (Payment.save (put_dbPayment req d t table) table) = length table.
Proof.
  intros E. unfold put_dbPayment, Payment.save. rewrite E. simpl.
  apply findOne_Some in E as (i & -> & _). apply length_insert.
Qed.

(** Laid over a new object, the data is the object. *)
Lemma setDataExternal_new (data : Payment.t) :
  Payment.setDataExternal data Payment.new = data.
Proof.
  destruct data as [a b c d e f g h i j k]. unfold Payment.setDataExternal. simpl.
  by destruct a, b, c, d, e, f, g, h, i, j, k.
Qed.

(** ** Running the handlers *)

Ltac run_monad :=
  unfold mbind, M_bind, mret, M_ret, throw, call, emit, try_catch,
    get_payments, set_payments, get_users; simpl.

Section Handlers.
Context {X : Type} (env : Collaborators X).

(** [putResource] is [put_resolves] followed by the lookup, the save,
    the notification and the log line. *)
Lemma putResource_run (req : PutRequest) (w : World X) :
  putResource env req w =
  match put_resolves env req w with
  | (w1, inl e) => (w1, inl e)
  | (w1, inr (d, t)) =>
      let obj := put_dbPayment req d t (payments w1) in
      (Build_World (Payment.save obj (payments w1)) (users w1)
         (events w1 ++
            [Looked_up (executionCondition t); Saved obj;
             Notified (User.username (put_user req)) (Payment.fields obj);
             Logged ("Ledger transfer payment ID " +:+ toLowerCase (params_id req))])
         (outside w1),
       inr {| put_status := Some 200;
              put_payment :=
                {| b_id := Some (toLowerCase (params_id req));
                   b_source_user := Some (User.id (put_user req));
                   b_destination := b_destination (put_body req);
                   b_sourceAmount := b_sourceAmount (put_body req);
                   b_destinationAmount := b_destinationAmount (put_body req);
                   b_message := b_message (put_body req) |} |})
  end.
Proof.
  unfold putResource, put_resolves, validateUriParameter, spsp_pay,
    Payment_findOne, Payment_save, socket_payment.
  run_monad.
  destruct (isUuid env (params_id req)); [|reflexivity].
  destruct (parseDestination env _ _) as [x1 [e|d]]; [reflexivity|].
  destruct (ledger_prepare env _ _) as [x2 [e|t]]; [reflexivity|]. simpl.
  destruct (ledger_fulfill env _ _) as [x3 [e|[]]]; [reflexivity|]. simpl.
  unfold put_dbPayment. rewrite <- !app_assoc. reflexivity.
Qed.

(** What [put_resolves] leaves: the tables as they were; on an error no
    step or the prepare alone, on success the prepare and the fulfill. *)
Lemma put_resolves_run (req : PutRequest) (w : World X) :
  let w1 := world_after (put_resolves env req) w in
  payments w1 = payments w ∧ users w1 = users w ∧
  match outcome (put_resolves env req) w with
  | inl e => events w1 = events w ∨ ∃ t, events w1 = events w ++ [Prepared t]
  | inr (d, t) =>
      isUuid env (params_id req) = true ∧
      events w1 = events w ++ [Prepared t; Fulfilled t]
  end.
Proof.
  unfold world_after, outcome, put_resolves, validateUriParameter, spsp_pay.
  run_monad.
  destruct (isUuid env (params_id req)); [|simpl; auto].
  destruct (parseDestination env _ _) as [x1 [e|d]]; [simpl; auto|].
  destruct (ledger_prepare env _ _) as [x2 [e|t]]; [simpl; auto|]. simpl.
  destruct (ledger_fulfill env _ _) as [x3 [e|[]]]; simpl.
  - eauto.
  - rewrite <- app_assoc. auto.
Qed.

(** An execution that does not go through leaves the table alone. *)
Lemma putResource_failed_table req w e :
  outcome (put_resolves env req) w = inl e →
  payments (world_after (putResource env req) w) = payments w.
Proof.
  intros He. pose proof (put_resolves_run req w) as (Hp & _).
  unfold world_after, outcome in *. rewrite putResource_run.
  destruct (put_resolves env req w) as [w1 [e'|[d t]]]; simpl in *; [done|discriminate].
Qed.

(** An execution that goes through saves its object. *)
Lemma putResource_saved_table req w d t :
  outcome (put_resolves env req) w = inr (d, t) →
  payments (world_after (putResource env req) w)
  = Payment.save (put_dbPayment req d t (payments w)) (payments w).
Proof.
  intros He. pose proof (put_resolves_run req w) as (Hp & _).
  unfold world_after, outcome in *. rewrite putResource_run.
  destruct (put_resolves env req w) as [w1 [e'|[d' t']]]; simpl in *; [discriminate|].
  injection He as -> ->. by rewrite Hp.
Qed.

(** The handler answers exactly when [put_resolves] does. *)
Lemma putResource_outcome req w :
  (∃ resp, outcome (putResource env req) w = inr resp)
  ↔ (∃ c, resolves_to env req w c).
Proof.
  unfold resolves_to, outcome. rewrite putResource_run.
  destruct (put_resolves env req w) as [w1 [e|[d t]]]; simpl; split.
  - intros [? [=]].
  - intros (? & ? & ? & [=] & _).
  - eauto.
  - eauto.
Qed.

Lemma putResource_keeps_uniqueness req w :
  one_row_per_condition (payments w) →
  one_row_per_condition (payments (world_after (putResource env req) w)).
Proof.
  intros Hw c. destruct (outcome (put_resolves env req) w) as [e|[d t]] eqn:E.
  - erewrite putResource_failed_table by done. apply Hw.
  - erewrite putResource_saved_table by done. rewrite save_rows_with.
    specialize (Hw c). destruct (decide _); lia.
Qed.

Lemma run_puts_keeps_uniqueness reqs w :
  one_row_per_condition (payments w) →
  one_row_per_condition (payments (run_puts env reqs w)).
Proof.
  revert w. induction reqs as [|r reqs IH]; intros w Hw; simpl; [done|].
  by apply IH, putResource_keeps_uniqueness.
Qed.

(** Later executions do not remove the row of a condition. *)
Lemma run_puts_keeps_row reqs w c :
  (1 ≤ Payment.rows_with c (payments w))%nat →
  (1 ≤ Payment.rows_with c (payments (run_puts env reqs w)))%nat.
Proof.
  revert w. induction reqs as [|r reqs IH]; intros w Hw; simpl; [done|].
  apply IH. destruct (outcome (put_resolves env r) w) as [e|[d t]] eqn:E.
  - by erewrite putResource_failed_table.
  - erewrite putResource_saved_table by done. rewrite save_rows_with.
    destruct (decide _); lia.
Qed.

(** Executions whose writes land at once.  They look a Payment up by the
    transfer's condition before they write: a row found is written in
    place, a row is added only when none was found.  So, from a table
    with at most one row per condition, any sequence of such executions
    leaves at most one row per condition, and exactly one row for every
    condition an execution of the sequence went through with. *)
Theorem putResource_one_row_per_condition (reqs : list PutRequest) (w : World X) :
  one_row_per_condition (payments w) →
  one_row_per_condition (payments (run_puts env reqs w)) ∧
  (∀ c, executed_with env c reqs w →
        Payment.rows_with c (payments (run_puts env reqs w)) = 1%nat) ∧
  (∀ r d t obj,
      outcome (put_resolves env r) w = inr (d, t) →
      Payment.findOne (executionCondition t) (payments w) = Some obj →
      length (payments (world_after (putResource env r) w)) = length (payments w)).
Proof.
  intros Hw. split; [by apply run_puts_keeps_uniqueness|]. split.
  - intros c Hc.
    enough (1 ≤ Payment.rows_with c (payments (run_puts env reqs w)))%nat as H1.
    { pose proof (run_puts_keeps_uniqueness reqs w Hw c). lia. }
    clear Hw. revert w Hc. induction reqs as [|r reqs IH]; intros w Hc; simpl in *; [done|].
    destruct Hc as [(d & t & E & <-)|Hc]; [|by apply IH].
    apply run_puts_keeps_row. erewrite putResource_saved_table by done.
    rewrite save_rows_with, decide_True by done. lia.
  - intros r d t obj E Hf. erewrite putResource_saved_table by done.
    by eapply save_found_length.
Qed.

(** [setup], outcome by outcome. *)
Lemma setup_run (req : SetupRequest) (w : World X) :
  setup env req w =
  match User.findOne (params_username req) (users w) with
  | None => (w, inr {| status := Some 404; body := None |})
  | Some u =>
      match createRequest env u (amount req) (outside w) with
      | (x1, inl e) => (Build_World (payments w) (users w) (events w) x1, inl e)
      | (x1, inr pp) =>
          let payment := setup_paymentObj req u pp in
          match db_insert env (payments w) payment x1 with
          | (x2, inl e) =>
              (Build_World (payments w) (users w)
                 (events w ++ [Logged "payments:299 woops"]) x2,
               inr {| status := None; body := None |})
          | (x2, inr _) =>
              (Build_World (Payment.create payment (payments w)) (users w)
                 (events w ++ [Created payment]) x2,
               inr {| status := None; body := Some pp |})
          end
      end
  end.
Proof.
  unfold setup, Payment_create. run_monad.
  destruct (User.findOne _ _) as [u|]; [|by destruct w].
  destruct (createRequest env u _ _) as [x1 [e|pp]]; [reflexivity|]. simpl.
  rewrite setDataExternal_new.
  destruct (db_insert env _ _ _) as [x2 [e|[]]]; reflexivity.
Qed.

(** C6. A request-setup for a username that no user has ends in the
    "not found" answer, status 404 and no body.  It is an answer, not a
    thrown error, and the world is as before: no Payment row is
    created, no request is generated. *)
Theorem setup_unknown_receiver (req : SetupRequest) (w : World X) :
  User.findOne (params_username req) (users w) = None →
  setup env req w = (w, inr {| status := Some 404; body := None |}).
Proof. intros Hu. by rewrite setup_run, Hu. Qed.

(** C9. When the database refuses the pending row of a request-setup,
    the error is caught: the handler answers without an error, assigns
    neither status nor body, and leaves the payments table as it was.
    The only trace is a log line; the condition that [createRequest]
    generated reaches neither the caller nor the table. *)
Theorem setup_create_failure_swallowed (req : SetupRequest) (w : World X)
    (u : User.t) (pp : PaymentParams) (x1 x2 : X) (e : Error) :
  User.findOne (params_username req) (users w) = Some u →
  createRequest env u (amount req) (outside w) = (x1, inr pp) →
  db_insert env (payments w) (setup_paymentObj req u pp) x1 = (x2, inl e) →
  setup env req w
  = (Build_World (payments w) (users w)
       (events w ++ [Logged "payments:299 woops"]) x2,
     inr {| status := None; body := None |}).
Proof. intros Hu Hc Hd. by rewrite setup_run, Hu, Hc; simpl; rewrite Hd. Qed.

(** The Quote Engine refuses a request with both amounts or with none,
    before it looks at the destination. *)
Lemma spsp_quote_both_or_neither (p : QuoteParams) (w : World X) :
  both_or_neither (q_sourceAmount p) (q_destinationAmount p) →
  spsp_quote env p w = (w, inl InvalidQuoteRequestError).
Proof.
  unfold both_or_neither, spsp_quote.
  by destruct (q_sourceAmount p), (q_destinationAmount p).
Qed.

(** On the wallet's own ledger the Quote Engine answers with the amount
    it was given, on both sides. *)
Lemma spsp_quote_local (p : QuoteParams) (w : World X) :
  dtype (q_destination p) = LOCAL →
  match outcome (spsp_quote env p) w with
  | inr q => sourceAmount q = destinationAmount q
  | inl e =>
      e = InvalidQuoteRequestError ∧
      both_or_neither (q_sourceAmount p) (q_destinationAmount p)
  end.
Proof.
  unfold both_or_neither, spsp_quote, outcome. intros ->.
  by destruct (q_sourceAmount p), (q_destinationAmount p).
Qed.

(** C4. A quote request must supply exactly one of the two amounts.
    With both or with neither, the Quote Engine throws
    InvalidQuoteRequestError whatever the source and the destination
    are, and the handler of [POST /payments/quote] fails without a
    quote: with that error once the destination has resolved, with the
    resolver's own error when it has not. *)
Theorem quote_needs_exactly_one_amount (req : QuoteRequest) (w : World X) :
  both_or_neither (quote_source_amount req) (quote_destination_amount req) →
  (∀ u d w',
      spsp_quote env {| q_source := u; q_destination := d;
                        q_sourceAmount := quote_source_amount req;
                        q_destinationAmount := quote_destination_amount req |} w'
      = (w', inl InvalidQuoteRequestError)) ∧
  match parseDestination env (quote_destination req) (outside w) with
  | (x, inr d) =>
      quote env req w
      = (Build_World (payments w) (users w) (events w) x, inl InvalidQuoteRequestError)
  | (x, inl e) =>
      quote env req w = (Build_World (payments w) (users w) (events w) x, inl e)
  end.
Proof.
  intros Hb. split.
  - intros u d w'. by apply spsp_quote_both_or_neither.
  - unfold quote. run_monad.
    destruct (parseDestination env _ _) as [x [e|d]]; [reflexivity|].
    by rewrite spsp_quote_both_or_neither.
Qed.

(** C5. When the destination of a quote request resolves to the
    wallet's own ledger, the quote that the handler answers with has
    equal source and destination amounts; the handler fails only when
    the request does not supply exactly one amount. *)
Theorem quote_local_identity (req : QuoteRequest) (w : World X)
    (x : X) (d : ResolvedDestination) :
  parseDestination env (quote_destination req) (outside w) = (x, inr d) →
  dtype d = LOCAL →
  match outcome (quote env req) w with
  | inr r =>
      ∃ q, r = {| status := None; body := Some q |} ∧
           sourceAmount q = destinationAmount q
  | inl e =>
      e = InvalidQuoteRequestError ∧
      both_or_neither (quote_source_amount req) (quote_destination_amount req)
  end.
Proof.
  intros Hd Hl. unfold outcome, quote. run_monad. rewrite Hd. simpl.
  set (p := {| q_source := quote_user req; q_destination := d;
               q_sourceAmount := quote_source_amount req;
               q_destinationAmount := quote_destination_amount req |}).
  pose proof (spsp_quote_local p
                (Build_World (payments w) (users w) (events w) x) Hl) as H.
  unfold outcome in H. destruct (spsp_quote env p _) as [w' [e|q]]; simpl in *; eauto.
Qed.
End Handlers.

(** ** The history page *)

(** For a positive divisor, [Math_ceil_div] is the least number of pages
    of [n] rows that hold [count] rows. *)
Lemma Math_ceil_div_pos (count n : Z) :
  (0 < n)%Z →
  ∃ t, Math_ceil_div count n = Finite t ∧ ((t - 1) * n < count ≤ t * n)%Z.
Proof.
  intros Hn. unfold Math_ceil_div.
  destruct (Z.eqb_spec n 0) as [->|_]; [lia|].
  eexists. split; [reflexivity|].
  pose proof (Z.div_mod (- count) n ltac:(lia)).
  pose proof (Z.mod_pos_bound (- count) n Hn). nia.
Qed.

(** C8, as the code has it.  A read of the payment history with a
    positive limit [n] answers
    with at most [n] rows, and with a number of pages that is the ceiling
    of the user's row count divided by [n]: the least [t] with
    [count <= t * n].  The read changes nothing. *)
Theorem getHistory_page {X : Type} (req : HistoryRequest) (w : World X) :
  (0 < limit req)%Z →
  ∃ h t,
    getHistory req w = (w, inr {| status := None; body := Some h |}) ∧
    (Z.of_nat (length (history_list h)) ≤ limit req)%Z ∧
    totalPages h = Finite t ∧
    let count :=
      PaymentQuery.count
        (PaymentQuery.getUserPayments (history_user req) (page req) (limit req)
           (payments w)) in
    ((t - 1) * limit req < count ≤ t * limit req)%Z.
Proof.
  intros Hn.
  destruct (Math_ceil_div_pos
              (PaymentQuery.count
                 (PaymentQuery.getUserPayments (history_user req) (page req)
                    (limit req) (payments w)))
              (limit req) Hn) as (t & Ht & Hb).
  eexists _, t. split; [unfold getHistory; run_monad; reflexivity|].
  simpl. split; [|by split].
  rewrite length_take. lia.
Qed.

(** ** The order of the steps of an execution *)

(** Decides an ordering of two kinds of steps on a record written out. *)
Ltac order_of_steps :=
  let i := fresh "i" in
  let e := fresh "e" in
  let Hi := fresh "Hi" in
  let He := fresh "He" in
  intros i e Hi He;
  do 7 (try destruct i as [|i]); simpl in Hi; try discriminate Hi;
  injection Hi as <-; simpl in He; try discriminate He;
  (split;
   [ first [ by (exists 0%nat; eexists; split_and!; [lia | reflexivity | reflexivity])
           | by (exists 1%nat; eexists; split_and!; [lia | reflexivity | reflexivity]) ]
   | let j := fresh "j" in
     let e' := fresh "e'" in
     let Hj := fresh "Hj" in
     let Hp := fresh "Hp" in
     intros j e' Hj Hp;
     do 7 (try destruct j as [|j]); simpl in Hj; try discriminate Hj;
     injection Hj as <-; simpl in Hp; try discriminate Hp; lia ]).

Section Execution.
Context {X : Type} (env : Collaborators X).

(** The steps of one execution: all six when it goes through, none or
    the prepare alone when it does not. *)
Lemma putResource_new_events (req : PutRequest) (w : World X) :
  match outcome (putResource env req) w with
  | inr _ =>
      ∃ t obj line,
        new_events (putResource env req) w
        = [Prepared t; Fulfilled t; Looked_up (executionCondition t); Saved obj;
           Notified (User.username (put_user req)) (Payment.fields obj);
           Logged line]
  | inl _ =>
      new_events (putResource env req) w = [] ∨
      ∃ t, new_events (putResource env req) w = [Prepared t]
  end.
Proof.
  pose proof (put_resolves_run env req w) as (_ & _ & He).
  unfold new_events, outcome, world_after in *. rewrite putResource_run.
  destruct (put_resolves env req w) as [w1 [e|[d t]]]; simpl in *.
  - destruct He as [->|[t ->]].
    + left. by rewrite drop_all.
    + right. exists t. by rewrite drop_app_length.
  - destruct He as [_ ->].
    exists t, (put_dbPayment req d t (payments w1)). eexists.
    rewrite <- app_assoc. rewrite drop_app_length. reflexivity.
Qed.

(** C7. Among the steps of one execution, the prepare comes before the
    fulfill, and the fulfill before the write of the Payment and before
    the notification: each write and each notification has the fulfill
    behind it.  An execution that goes through takes the steps prepare,
    fulfill, lookup, save, notify in that order; one that does not go
    through writes nothing and notifies nobody. *)
Theorem putResource_order (req : PutRequest) (w : World X) :
  let steps := new_events (putResource env req) w in
  precedes is_prepare is_fulfill steps ∧
  precedes is_fulfill is_save steps ∧
  precedes is_fulfill is_notify steps ∧
  match outcome (putResource env req) w with
  | inr _ =>
      ∃ t obj line,
        steps = [Prepared t; Fulfilled t; Looked_up (executionCondition t); Saved obj;
                 Notified (User.username (put_user req)) (Payment.fields obj);
                 Logged line]
  | inl _ => steps = [] ∨ ∃ t, steps = [Prepared t]
  end.
Proof.
  intros steps. pose proof (putResource_new_events req w) as H. fold steps in H.
  split_and!; [| | |exact H];
    destruct (outcome (putResource env req) w);
    (destruct H as [->|[t ->]] || destruct H as (t & obj & line & ->));
    order_of_steps.
Qed.

(** ** The states written *)

Lemma quote_table (req : QuoteRequest) (w : World X) :
  payments (world_after (quote env req) w) = payments w.
Proof.
  unfold world_after, quote, spsp_quote. run_monad.
  destruct (parseDestination env _ _) as [x [e|d]]; [reflexivity|]. simpl.
  destruct (quote_source_amount req), (quote_destination_amount req); simpl;
    try reflexivity; destruct (dtype d); simpl; try reflexivity;
    destruct (remote_quote env _ _) as [x' [e|q]]; reflexivity.
Qed.

(** What a request does to the payments table: nothing, the save of an
    execution, or the new row of a request-setup. *)
Lemma handle_table (r : Request) (w : World X) :
  payments (handle env r w) = payments w ∨
  (∃ req d t, payments (handle env r w)
              = Payment.save (put_dbPayment req d t (payments w)) (payments w)) ∨
  (∃ req u pp, payments (handle env r w)
               = Payment.create (setup_paymentObj req u pp) (payments w)).
Proof.
  destruct r as [r|r|r|r]; simpl.
  - by left.
  - left. apply quote_table.
  - destruct (outcome (put_resolves env r) w) as [e|[d t]] eqn:E.
    + left. by eapply putResource_failed_table.
    + right. left. exists r, d, t. by apply putResource_saved_table.
  - unfold world_after. rewrite setup_run.
    destruct (User.findOne _ _) as [u|]; [|by left].
    destruct (createRequest env u _ _) as [x1 [e|pp]]; [by left|]. simpl.
    destruct (db_insert env _ _ _) as [x2 [e|[]]]; [by left|].
    right. right. by exists r, u, pp.
Qed.

Lemma save_states req d t table :
  writes_success_or_new_pending table
    (Payment.save (put_dbPayment req d t table) table).
Proof.
  unfold put_dbPayment, Payment.save.
  destruct (Payment.findOne _ table) as [obj|] eqn:E; simpl.
  - apply findOne_Some in E as (i & -> & Hi & _). split.
    + intros j p Hj. destruct (decide (i = j)) as [->|Hne].
      * rewrite list_lookup_insert_eq by (by eapply lookup_lt_Some). eauto.
      * rewrite list_lookup_insert_ne by done. eauto.
    + intros j p' Hj Hj'. destruct (decide (i = j)) as [->|Hne]; [congruence|].
      rewrite list_lookup_insert_ne in Hj' by done. congruence.
  - split.
    + intros j p Hj. rewrite lookup_app_l by (by eapply lookup_lt_Some). eauto.
    + intros j p' Hj Hj'. apply lookup_ge_None in Hj.
      rewrite lookup_app_r in Hj' by done.
      destruct (j - length table)%nat as [|k]; simpl in Hj'; [|done].
      injection Hj' as <-. by right.
Qed.

Lemma create_states req u pp table :
  writes_success_or_new_pending table
    (Payment.create (setup_paymentObj req u pp) table).
Proof.
  unfold Payment.create. split.
  - intros j p Hj. rewrite lookup_app_l by (by eapply lookup_lt_Some). eauto.
  - intros j p' Hj Hj'. apply lookup_ge_None in Hj.
    rewrite lookup_app_r in Hj' by done.
    destruct (j - length table)%nat as [|k]; simpl in Hj'; [|done].
    injection Hj' as <-. by left.
Qed.

Lemma handle_states (r : Request) (w : World X) :
  writes_success_or_new_pending (payments w) (payments (handle env r w)).
Proof.
  destruct (handle_table r w) as [->|[(req & d & t & ->)|(req & u & pp & ->)]].
  - split; [eauto|congruence].
  - apply save_states.
  - apply create_states.
Qed.

End Execution.

(** ** A request-setup followed by its execution *)

(** The lookup finds a row with the condition when no row before it has
    the condition. *)
Lemma findOne_first c (l : list Payment.t) n p :
  l !! n = Some p → Payment.has_condition c p →
  Payment.rows_with c (take n l) = 0%nat →
  Payment.findOne c l = Some (Payment.Instance (Some n) p).
Proof.
  intros Hn Hp Hl. unfold Payment.findOne.
  assert (list_find (Payment.has_condition c) l = Some (n, p)) as ->; [|done].
  apply list_find_Some. split_and!; [done..|].
  intros j q Hj Hlt Hc.
  assert (take n l !! j = Some q) as Hj' by (by rewrite lookup_take_lt).
  pose proof (rows_with_lookup _ _ _ _ Hj' Hc). lia.
Qed.

Section Merge.
Context {X : Type} (env : Collaborators X).

(** What a request-setup that answers with its payment request has
    done: the user was found and the pending row is the last of the
    table. *)
Lemma setup_answered (req : SetupRequest) (w : World X) (pp : PaymentParams) :
  outcome (setup env req) w = inr {| status := None; body := Some pp |} →
  ∃ u, User.findOne (params_username req) (users w) = Some u ∧
       payments (world_after (setup env req) w)
       = payments w ++ [setup_paymentObj req u pp].
Proof.
  unfold outcome, world_after. rewrite setup_run.
  destruct (User.findOne _ _) as [u|]; [|intros [=]].
  destruct (createRequest env u _ _) as [x1 [e|pp']]; [intros [=]|]. simpl.
  destruct (db_insert env _ _ _) as [x2 [e|[]]]; intros [= <-]. eauto.
Qed.

(** C3, as the code has it.  A request-setup writes a pending row under
    its condition.  Later, with that row as it was written and no row of
    the condition before it, an execution goes through with a transfer of
    the condition.  The execution writes the same row and adds none.  The
    row is in success; it keeps the receiver-side columns the execution
    does not write (destination_user, source_account); it has the
    sender-side columns (source_user, transfer, destination_account,
    source_amount); and in the two columns both sides write
    (destination_amount, message) it has the value of the execution where
    the execution supplies one, that of the request-setup where it does
    not. *)
Theorem setup_then_execute_merges (sreq : SetupRequest) (preq : PutRequest)
    (w w' : World X) (pp : PaymentParams) :
  let n := length (payments w) in
  outcome (setup env sreq) w = inr {| status := None; body := Some pp |} →
  payments w' !! n = payments (world_after (setup env sreq) w) !! n →
  Payment.rows_with (condition pp) (take n (payments w')) = 0%nat →
  resolves_to env preq w' (condition pp) →
  ∃ u d t final,
    User.findOne (params_username sreq) (users w) = Some u ∧
    outcome (put_resolves env preq) w' = inr (d, t) ∧
    payments (world_after (setup env sreq) w)
    = payments w ++ [setup_paymentObj sreq u pp] ∧
    payments (world_after (putResource env preq) w') = <[n := final]> (payments w') ∧
    payments (world_after (putResource env preq) w') !! n = Some final ∧
    Payment.state final = Some success ∧
    Payment.execution_condition final = Some (condition pp) ∧
    Payment.destination_user final = Some (User.id u) ∧
    Payment.source_account final = sender_identifier sreq ∧
    Payment.source_user final = Some (User.id (put_user preq)) ∧
    Payment.transfer final = Some (uuid t) ∧
    Payment.destination_account final = Some (accountUri d) ∧
    Payment.source_amount final = b_sourceAmount (put_body preq) ∧
    Payment.destination_amount final
    = Payment.over (b_destinationAmount (put_body preq)) (amount sreq) ∧
    Payment.message final = Payment.over (b_message (put_body preq)) (memo sreq).
Proof.
  intros n Hs Hrow Hfirst (d & t & Hr & Hc).
  apply setup_answered in Hs as (u & Hu & Hw1).
  rewrite Hw1 in Hrow. unfold n in Hrow.
  rewrite lookup_app_r, Nat.sub_diag in Hrow by done. simpl in Hrow. fold n in Hrow.
  exists u, d, t.
  exists (Payment.setDataExternal (put_paymentObj preq d t) (setup_paymentObj sreq u pp)).
  assert (payments (world_after (putResource env preq) w')
          = <[n := Payment.setDataExternal (put_paymentObj preq d t)
                      (setup_paymentObj sreq u pp)]> (payments w')) as Hw2.
  { rewrite (putResource_saved_table env preq w' d t Hr).
    unfold put_dbPayment. rewrite Hc.
    by rewrite (findOne_first (condition pp) (payments w') n _ Hrow). }
  split_and!; try done.
  - rewrite Hw2. apply list_lookup_insert_eq. by eapply lookup_lt_Some.
  - simpl. by rewrite Hc.
  - simpl. by destruct (b_sourceAmount (put_body preq)).
Qed.

(** C10, as the code has it.  An execution that goes through has checked
    the id parameter for the Uuid syntax; the lower-case id goes to the
    request's own payment object, with the authenticated user's id as
    its source_user.  The Payment that is stored has the authenticated
    user's id as source_user whatever the body said, and takes no id
    from the request: a Payment found by the transfer's condition is
    written back to its row under the id it had. *)
Theorem putResource_id_and_source_user (req : PutRequest) (w : World X)
    (resp : PutResponse) :
  outcome (putResource env req) w = inr resp →
  isUuid env (params_id req) = true ∧
  b_id (put_payment resp) = Some (toLowerCase (params_id req)) ∧
  b_source_user (put_payment resp) = Some (User.id (put_user req)) ∧
  ∃ d t,
    let stored := put_dbPayment req d t (payments w) in
    outcome (put_resolves env req) w = inr (d, t) ∧
    payments (world_after (putResource env req) w)
      !! written_row stored (payments w) = Some (Payment.fields stored) ∧
    Payment.source_user (Payment.fields stored) = Some (User.id (put_user req)) ∧
    (∀ found,
        Payment.findOne (executionCondition t) (payments w) = Some found →
        Payment.row stored = Payment.row found ∧
        Payment.id (Payment.fields stored) = Payment.id (Payment.fields found)).
Proof.
  intros Ho.
  pose proof (put_resolves_run env req w) as (Hp & _ & He).
  destruct (outcome (put_resolves env req) w) as [e|[d t]] eqn:E.
  { exfalso. unfold outcome in *. rewrite putResource_run in Ho.
    destruct (put_resolves env req w) as [w1 [e'|[d t]]]; simpl in *; discriminate. }
  destruct He as [Hid _].
  unfold outcome in Ho, E. rewrite putResource_run in Ho.
  destruct (put_resolves env req w) as [w1 [e'|[d' t']]] eqn:E'; simpl in *; [discriminate|].
  injection E as -> ->. injection Ho as <-. simpl.
  split_and!; try done.
  exists d, t. simpl. split_and!; try done.
  - assert (outcome (put_resolves env req) w = inr (d, t)) as Hr
      by (unfold outcome; by rewrite E').
    rewrite (putResource_saved_table env req w d t Hr).
    apply save_written_row.
  - intros found Hf. unfold put_dbPayment. rewrite Hf. simpl. split; [done|].
    by destruct (Payment.id (Payment.fields found)).
Qed.
End Merge.

(** ** The theorems on the example wallet *)

Lemma putResource_one_row_per_condition_witness :
  one_row_per_condition (payments empty_wallet) ∧
  Payment.rows_with bob_condition
    (payments (run_puts wallet [alice_pays; alice_pays] empty_wallet)) = 1%nat.
Proof.
  assert (one_row_per_condition (payments empty_wallet)) as H0
    by (intros c; apply Nat.le_0_l).
  split; [exact H0|].
  apply (putResource_one_row_per_condition wallet [alice_pays; alice_pays]
           empty_wallet H0).
  left. eexists _, _. split; reflexivity.
Defined.

Lemma setup_then_execute_merges_witness :
  outcome (setup wallet bob_asks) empty_wallet
  = inr {| status := None; body := Some bob_request |} ∧
  resolves_to wallet alice_pays after_request bob_condition ∧
  ∃ final, payments after_payment = [final] ∧
           Payment.state final = Some success ∧
           Payment.destination_user final = Some 2%Z ∧
           Payment.source_user final = Some 1%Z.
Proof.
  assert (resolves_to wallet alice_pays after_request bob_condition) as Hr
    by (eexists _, _; split; reflexivity).
  split_and!; [reflexivity|exact Hr|].
  destruct (setup_then_execute_merges wallet bob_asks alice_pays empty_wallet
              after_request bob_request eq_refl eq_refl eq_refl Hr)
    as (u & d & t & final & Hu & _ & _ & Hw2 & _ & Hs & _ & Hdu & _ & Hsu & _).
  injection Hu as <-.
  exists final. split_and!; [exact Hw2|exact Hs|exact Hdu|exact Hsu].
Defined.

Lemma quote_needs_exactly_one_amount_witness :
  both_or_neither (quote_source_amount quote_both) (quote_destination_amount quote_both) ∧
  quote wallet quote_both empty_wallet = (empty_wallet, inl InvalidQuoteRequestError).
Proof.
  split; [reflexivity|].
  exact (proj2 (quote_needs_exactly_one_amount wallet quote_both empty_wallet eq_refl)).
Defined.

Lemma quote_local_identity_witness :
  ∃ q, outcome (quote wallet quote_source) empty_wallet
       = inr {| status := None; body := Some q |} ∧
       sourceAmount q = destinationAmount q.
Proof.
  pose proof (quote_local_identity wallet quote_source empty_wallet ()
                {| dtype := LOCAL; accountUri := account_of "bob";
                   ledgerHost := "wallet.example" |}
                eq_refl eq_refl) as H.
  simpl in H. destruct H as (q & [= <-] & Hq).
  eexists. split; [reflexivity|exact Hq].
Defined.

Lemma setup_unknown_receiver_witness :
  User.findOne (params_username carol_asks) (users empty_wallet) = None ∧
  setup wallet carol_asks empty_wallet
  = (empty_wallet, inr {| status := Some 404; body := None |}).
Proof.
  split; [reflexivity|].
  exact (setup_unknown_receiver wallet carol_asks empty_wallet eq_refl).
Defined.

Lemma getHistory_page_witness :
  (0 < limit alice_history)%Z ∧
  ∃ h t, getHistory alice_history after_payment
         = (after_payment, inr {| status := None; body := Some h |}) ∧
         (Z.of_nat (length (history_list h)) ≤ 2)%Z ∧
         totalPages h = Finite t.
Proof.
  assert (0 < limit alice_history)%Z as Hn by reflexivity.
  split; [exact Hn|].
  destruct (getHistory_page alice_history after_payment Hn) as (h & t & H1 & H2 & H3 & _).
  exists h, t. split_and!; [exact H1|exact H2|exact H3].
Defined.

Lemma setup_create_failure_swallowed_witness :
  setup wallet_db_down bob_asks empty_wallet
  = (Build_World [] [alice; bob] [Logged "payments:299 woops"] (),
     inr {| status := None; body := None |}).
Proof.
  exact (setup_create_failure_swallowed wallet_db_down bob_asks empty_wallet
           bob bob_request () () (OtherError "SequelizeConnectionError")
           eq_refl eq_refl eq_refl).
Defined.

Lemma putResource_id_and_source_user_witness :
  outcome (putResource wallet alice_pays) wallet_with_pending = inr alice_paid ∧
  b_id (put_payment alice_paid) = Some (toLowerCase (params_id alice_pays)) ∧
  b_source_user (put_payment alice_paid) = Some (User.id alice).
Proof.
  assert (outcome (putResource wallet alice_pays) wallet_with_pending = inr alice_paid)
    as Ho by reflexivity.
  split; [exact Ho|].
  destruct (putResource_id_and_source_user wallet alice_pays wallet_with_pending
              alice_paid Ho) as (_ & Hid & Hsu & _).
  split; [exact Hid|exact Hsu].
Defined.

(** ** Where the code does otherwise *)

(** C2: a payment that was marked failed is set to success by an execution
    that goes through with a transfer of its condition. *)
Lemma failed_row_is_set_to_success :
  ¬ only_leaves_pending (payments wallet_with_failed)
      (payments (handle wallet (PutPayment alice_pays) wallet_with_failed)).
Proof.
  intros H.
  destruct (H 0%nat failed_payment _ eq_refl eq_refl) as [Hp _]; discriminate.
Qed.

(** C3: Bob asked for 10 with the memo "invoice 7"; after Alice's payment
    of 12 with the message "thanks" the one row is in success, and its
    destination_amount and message are Alice's. *)
Lemma execution_replaces_receiver_fields :
  ∃ written final,
    payments after_request = [written] ∧
    payments after_payment = [final] ∧
    Payment.execution_condition written = Some bob_condition ∧
    Payment.state written = Some pending ∧
    Payment.state final = Some success ∧
    Payment.destination_amount written = Some "10"%string ∧
    Payment.destination_amount final = Some "12"%string ∧
    ¬ keeps_receiver_fields written final.
Proof.
  eexists _, _. split_and!; try reflexivity.
  intros (_ & _ & Ha & _). discriminate Ha.
Qed.

(** C10: the row of Bob's request has the id the database gave it; after
    Alice's payment under another id parameter the row still has it. *)
Lemma stored_id_is_not_the_request_id :
  ∃ stored,
    outcome (putResource wallet alice_pays) wallet_with_pending = inr alice_paid ∧
    payments (world_after (putResource wallet alice_pays) wallet_with_pending)
    = [stored] ∧
    Payment.state stored = Some success ∧
    Payment.id stored = Some "e1d3c588-807c-4d4f-b25c-61842b5ead6d"%string ∧
    ¬ stored_id_from_request alice_pays stored.
Proof.
  eexists. split_and!; try reflexivity.
  intros H. discriminate H.
Qed.

(** An execution with no row to find stores a row without an id. *)
Example new_row_has_no_id :
  ∃ stored,
    payments (world_after (putResource wallet alice_pays) empty_wallet) = [stored] ∧
    Payment.id stored = None.
Proof. eexists. split; reflexivity. Qed.

(** * Further properties of the controller *)

(** ** The failures of an execution *)

Section ExecutionFailures.
Context {X : Type} (env : Collaborators X).

(** X1. An execution whose id parameter does not have the Uuid syntax
    throws InvalidUriParameterError before anything else happens: the
    resolver and the ledger are not asked, and the world is as before. *)
Theorem putResource_rejects_bad_id (req : PutRequest) (w : World X) :
  isUuid env (params_id req) = false →
  putResource env req w = (w, inl InvalidUriParameterError).
Proof.
  intros Hid. rewrite putResource_run.
  unfold put_resolves, validateUriParameter. run_monad. by rewrite Hid.
Qed.

(** X2. An execution whose destination does not resolve throws the
    resolver's error: the ledger is not asked (the outside is as the
    resolver left it), no step is recorded and no row is written. *)
Theorem putResource_unresolved_destination (req : PutRequest) (w : World X)
    (x : X) (e : Error) :
  isUuid env (params_id req) = true →
  parseDestination env (b_destination (put_body req)) (outside w) = (x, inl e) →
  putResource env req w
  = (Build_World (payments w) (users w) (events w) x, inl e).
Proof.
  intros Hid Hd. rewrite putResource_run.
  unfold put_resolves, validateUriParameter. run_monad. by rewrite Hid, Hd.
Qed.

(** X3. An execution that ends in an error, whichever it is, leaves the
    payments and the users as they were, and has saved and notified
    nothing. *)
Theorem putResource_error_keeps_tables (req : PutRequest) (w : World X) (e : Error) :
  outcome (putResource env req) w = inl e →
  payments (world_after (putResource env req) w) = payments w ∧
  users (world_after (putResource env req) w) = users w ∧
  Forall (λ ev, is_save ev = false ∧ is_notify ev = false)
         (new_events (putResource env req) w).
Proof.
  intros He.
  pose proof (put_resolves_run env req w) as (Hp & Hu & _).
  pose proof (putResource_new_events env req w) as Hev. rewrite He in Hev.
  unfold outcome, world_after in *. rewrite putResource_run in He |- *.
  destruct (put_resolves env req w) as [w1 [e'|[d t]]]; simpl in *; [|discriminate].
  split_and!; [done..|].
  destruct Hev as [->|[t ->]]; repeat constructor.
Qed.

(** X4. An execution changes one row at most: there is a row [k], in the
    table or right behind it, such that every other row is as it was, and
    the table has grown by one row or not at all. *)
Theorem putResource_touches_one_row (req : PutRequest) (w : World X) :
  let after := payments (world_after (putResource env req) w) in
  ∃ k, (k ≤ length (payments w))%nat ∧
       (∀ i, i ≠ k → after !! i = payments w !! i) ∧
       (length (payments w) ≤ length after ≤ S (length (payments w)))%nat.
Proof.
  intros after. unfold after.
  destruct (outcome (put_resolves env req) w) as [e|[d t]] eqn:E.
  - rewrite (putResource_failed_table env req w e E).
    exists 0%nat. split_and!; [lia|done|lia|lia].
  - rewrite (putResource_saved_table env req w d t E).
    unfold put_dbPayment, Payment.save.
    destruct (Payment.findOne _ (payments w)) as [obj|] eqn:F; simpl.
    + apply findOne_Some in F as (i & -> & Hi & _).
      exists i. apply lookup_lt_Some in Hi.
      split_and!; [lia| |rewrite length_insert; lia..].
      intros j Hj. by rewrite list_lookup_insert_ne.
    + exists (length (payments w)). rewrite length_app. simpl.
      split_and!; [lia| |lia..].
      intros j Hj. destruct (decide (j < length (payments w))%nat).
      * by rewrite lookup_app_l.
      * rewrite !lookup_ge_None_2; [done|lia|rewrite length_app; simpl; lia].
Qed.
End ExecutionFailures.

(** ** Trying an execution again *)

(** The lookup finds the first row of the condition: no row before it has
    the condition. *)
Lemma findOne_Some_first c table obj :
  Payment.findOne c table = Some obj →
  ∃ i, Payment.row obj = Some i ∧ table !! i = Some (Payment.fields obj) ∧
       Payment.has_condition c (Payment.fields obj) ∧
       Payment.rows_with c (take i table) = 0%nat.
Proof.
  unfold Payment.findOne. destruct (list_find _ table) as [[i p]|] eqn:E; [|discriminate].
  intros [= <-]. apply list_find_Some in E as (Hi & Hp & Hmin). simpl.
  exists i. split_and!; [done..|].
  apply rows_with_none, Forall_forall. intros q Hq Hc.
  apply list_elem_of_lookup in Hq as [j Hj].
  apply lookup_take_Some in Hj as [Hj Hlt]. by eapply Hmin.
Qed.



Section Retry.
Context {X : Type} (env : Collaborators X).


(** X6. An execution that goes through answers with status 200 and
    notifies once: the sessions of the authenticated user, with the
    Payment as it now stands in the table. *)
Theorem putResource_notifies_stored (req : PutRequest) (w : World X)
    (resp : PutResponse) :
  outcome (putResource env req) w = inr resp →
  put_status resp = Some 200%nat ∧
  ∃ k stored,
    payments (world_after (putResource env req) w) !! k = Some stored ∧
    List.filter is_notify (new_events (putResource env req) w)
    = [Notified (User.username (put_user req)) stored].
Proof.
  intros Ho.
  pose proof (put_resolves_run env req w) as (Hp & _ & He).
  unfold new_events, outcome, world_after in *. rewrite putResource_run in Ho |- *.
  destruct (put_resolves env req w) as [w1 [e|[d t]]]; simpl in *; [discriminate|].
  injection Ho as <-. split; [done|].
  destruct He as [_ ->]. rewrite Hp.
  exists (written_row (put_dbPayment req d t (payments w)) (payments w)),
         (Payment.fields (put_dbPayment req d t (payments w))).
  split; [apply save_written_row|].
  rewrite <- app_assoc, drop_app_length. reflexivity.
Qed.
End Retry.

(** ** The request-setup *)

Lemma rows_with_snoc c (table : list Payment.t) p :
  Payment.rows_with c (table ++ [p])
  = (Payment.rows_with c table
     + if decide (Payment.execution_condition p = Some c) then 1 else 0)%nat.
Proof.
  rewrite rows_with_app, rows_with_cons. unfold Payment.rows_with at 2. simpl.
  destruct (decide (Payment.has_condition c p)) as [H|H],
           (decide (Payment.execution_condition p = Some c)) as [H'|H'];
    simpl; try lia; by unfold Payment.has_condition in H.
Qed.

Section SetupFacts.
Context {X : Type} (env : Collaborators X).

(** X8. A request-setup that answers with a payment request has added
    exactly one row, behind the rows that were there: a pending row under
    the request's condition with the receiver's user, amount, memo and
    sender identifier, and with no id, no source user and no transfer.
    It does not look the condition up first: the rows of the condition
    are one more than before, whatever was there. *)
Theorem setup_adds_one_pending_row (req : SetupRequest) (w : World X)
    (resp : Response PaymentParams) (pp : PaymentParams) :
  outcome (setup env req) w = inr resp →
  body resp = Some pp →
  status resp = None ∧
  ∃ u written,
    User.findOne (params_username req) (users w) = Some u ∧
    payments (world_after (setup env req) w) = payments w ++ [written] ∧
    Payment.state written = Some pending ∧
    Payment.execution_condition written = Some (condition pp) ∧
    Payment.destination_user written = Some (User.id u) ∧
    Payment.destination_amount written = amount req ∧
    Payment.message written = memo req ∧
    Payment.source_account written = sender_identifier req ∧
    Payment.id written = None ∧
    Payment.source_user written = None ∧
    Payment.transfer written = None ∧
    ∀ c, Payment.rows_with c (payments (world_after (setup env req) w))
         = (Payment.rows_with c (payments w)
            + if decide (c = condition pp) then 1 else 0)%nat.
Proof.
  unfold outcome, world_after. rewrite setup_run.
  destruct (User.findOne _ _) as [u|]; simpl; [|by intros [= <-]].
  destruct (createRequest env u _ _) as [x1 [e'|pp']]; simpl; [done|].
  destruct (db_insert env _ _ _) as [x2 [e'|[]]]; simpl; intros [= <-]; [done|].
  intros [= ->]. split; [done|].
  exists u, (setup_paymentObj req u pp). split_and!; try done.
  intros c. unfold Payment.create. rewrite rows_with_snoc. simpl. f_equal.
  destruct (decide (c = condition pp)) as [->|Hne].
  - by rewrite decide_True.
  - rewrite decide_False; [done|]. congruence.
Qed.
End SetupFacts.

(** ** What no sequence of requests does *)

Section Sequences.
Context {X : Type} (env : Collaborators X).

Lemma save_identity req d t table i p :
  table !! i = Some p →
  ∃ p', Payment.save (put_dbPayment req d t table) table !! i = Some p' ∧
        same_identity p p'.
Proof.
  intros Hi. unfold put_dbPayment, Payment.save.
  destruct (Payment.findOne _ table) as [obj|] eqn:F; simpl.
  - apply findOne_Some in F as (j & -> & Hj & Hc).
    destruct (decide (j = i)) as [->|Hne].
    + rewrite list_lookup_insert_eq by (by eapply lookup_lt_Some).
      eexists. split; [done|]. rewrite Hi in Hj. injection Hj as ->.
      unfold same_identity, Payment.has_condition in *. simpl.
      rewrite Hc. done.
    + rewrite list_lookup_insert_ne by done. by exists p.
  - rewrite lookup_app_l by (by eapply lookup_lt_Some). by exists p.
Qed.

Lemma handle_identity (r : Request) (w : World X) i p :
  payments w !! i = Some p →
  ∃ p', payments (handle env r w) !! i = Some p' ∧ same_identity p p'.
Proof.
  intros Hi.
  destruct (handle_table env r w) as [->|[(req & d & t & ->)|(req & u & pp & ->)]].
  - by exists p.
  - by apply save_identity.
  - unfold Payment.create. rewrite lookup_app_l by (by eapply lookup_lt_Some).
    by exists p.
Qed.

(** X10. No request removes a row or re-keys one: through any sequence
    of requests, a row stays at its place with the id, the source
    account, the destination user and the execution condition it had. *)
Theorem requests_keep_row_identity (rs : list Request) (w : World X)
    (i : nat) (p : Payment.t) :
  payments w !! i = Some p →
  ∃ p', payments (run_requests env rs w) !! i = Some p' ∧ same_identity p p'.
Proof.
  revert w p. induction rs as [|r rs IH]; intros w p Hi; simpl.
  - by exists p.
  - destruct (handle_identity r w i p Hi) as (p1 & Hp1 & (?&?&?&?)).
    destruct (IH _ _ Hp1) as (p2 & Hp2 & (?&?&?&?)).
    exists p2. split; [done|]. unfold same_identity. split_and!; congruence.
Qed.

End Sequences.

(** ** Reads: the history and the quote *)

(** X12. The history is read without a check of the limit.  With the
    limit 0 the handler still answers, and its number of pages is the
    quotient of a division by zero: NaN when the user has no payment,
    Infinity when the user has one. *)
Theorem getHistory_limit_zero {X : Type} (req : HistoryRequest) (w : World X) :
  limit req = 0%Z →
  ∃ h,
    getHistory req w = (w, inr {| status := None; body := Some h |}) ∧
    (∀ t, totalPages h ≠ Finite t) ∧
    totalPages h
    = match List.filter (PaymentQuery.concerns (history_user req)) (payments w) with
      | [] => NaN
      | _ :: _ => PlusInfinity
      end.
Proof.
  intros Hl. eexists. split; [unfold getHistory; run_monad; reflexivity|].
  simpl. rewrite Hl. unfold Math_ceil_div. simpl.
  destruct (List.filter _ (payments w)) as [|p l]; simpl; [done|].
  split; [|done]. intros t. done.
Qed.

Section QuoteFacts.
Context {X : Type} (env : Collaborators X).

(** X13. A quote whose destination does not resolve throws the
    resolver's error, whatever amounts the request supplies; the Quote
    Engine is not asked. *)
Theorem quote_unresolved_destination (req : QuoteRequest) (w : World X)
    (x : X) (e : Error) :
  parseDestination env (quote_destination req) (outside w) = (x, inl e) →
  quote env req w = (Build_World (payments w) (users w) (events w) x, inl e).
Proof. intros Hd. unfold quote. run_monad. by rewrite Hd. Qed.
End QuoteFacts.

(** * Properties of the send action *)

Section SendFacts.
Context {V T : Type} (transfer : SendAction.Options V → T).

(** X14. [send] fails, with a TypeError and without a call of
    [transfer], exactly when the request has no body or no user in its
    session; in every other case it returns what [transfer] returns for
    the options it built: the recipient and the amount of the body, the
    name and the password of the session's user. *)
Theorem send_fails_without_body_or_user (req : SendAction.Req V) :
  ((∃ e, SendAction.send transfer req = inl e)
   ↔ SendAction.body req = None ∨ SendAction.session_user req = None) ∧
  (∀ b user,
      SendAction.body req = Some b → SendAction.session_user req = Some user →
      SendAction.send transfer req
      = inr (transfer
               {| SendAction.options_recipient := b !! "recipient";
                  SendAction.options_amount := b !! "amount";
                  SendAction.options_username := SendAction.name user;
                  SendAction.options_password := SendAction.password user |})).
Proof.
  unfold SendAction.send.
  destruct (SendAction.body req) as [b|], (SendAction.session_user req) as [u|];
    (split; [split; try (intros [e [=]]); try (intros [[=]|[=]]); eauto|]);
    intros b' u' [=] [=]; by subst.
Qed.

(** X15. The transfer is made with the credentials of the session, and
    the body chooses the recipient and the amount only: any other
    property of the body (a username or a password, say) changes
    nothing. *)
Theorem send_ignores_other_properties (b : gmap string V)
    (user : option (SendAction.SessionUser V)) (k : string) (v : V) :
  k ≠ "recipient"%string → k ≠ "amount"%string →
  SendAction.send transfer
    {| SendAction.body := Some (<[k := v]> b); SendAction.session_user := user |}
  = SendAction.send transfer
      {| SendAction.body := Some b; SendAction.session_user := user |}.
Proof.
  intros Hr Ha. unfold SendAction.send. simpl.
  destruct user as [u|]; [|done].
  by rewrite !lookup_insert_ne.
Qed.
End SendFacts.

(** * Properties of the registration form *)

Section FormFacts.
Context {Field Callback : Type}.
Implicit Types p : RegisterForm.Props Field Callback.

(** X16. The form shows one alert when the failure has an id, none
    otherwise; the text that the username is taken is shown for the id
    UsernameTakenError only, so for every other id the alert is empty. *)
Theorem render_alert p :
  match RegisterForm.truthy_fail_id p with
  | Some i =>
      ∃ alert, RegisterForm.elements "Alert" (RegisterForm.render p) = [alert] ∧
        (i = "UsernameTakenError"%string →
         RegisterForm.texts alert = ["Woops!"; " Username is already taken"]%string) ∧
        (i ≠ "UsernameTakenError"%string → RegisterForm.descendants alert = [alert])
  | None => RegisterForm.elements "Alert" (RegisterForm.render p) = []
  end ∧
  (In " Username is already taken"%string (RegisterForm.texts (RegisterForm.render p))
   ↔ RegisterForm.truthy_fail_id p = Some "UsernameTakenError"%string).
Proof.
  unfold RegisterForm.render, RegisterForm.elements, RegisterForm.texts.
  destruct (RegisterForm.truthy_fail_id p) as [i|]; simpl.
  - destruct (String.eqb_spec i "UsernameTakenError") as [->|Hne]; simpl.
    + split; [eexists; split_and!; [reflexivity|done|done]|].
      split; [done|]. intros _. destruct (RegisterForm.submitting p); simpl; tauto.
    + split; [eexists; split_and!; [reflexivity|done|done]|].
      split; [|by intros [= ->]].
      destruct (RegisterForm.submitting p); simpl; intros H;
        repeat (destruct H as [H|H]; [discriminate H|]); done.
  - split; [done|]. split; [|done].
    destruct (RegisterForm.submitting p); simpl; intros H;
      repeat (destruct H as [H|H]; [discriminate H|]); done.
Qed.

(** X17. The form has one button.  While the form is submitting the
    button reads Registering and is disabled; it is enabled only when
    the form has been touched, is valid and is not submitting, and then
    it reads Register. *)
Theorem render_button p :
  ∃ button,
    RegisterForm.elements "button" (RegisterForm.render p) = [button] ∧
    (RegisterForm.submitting p = true →
     RegisterForm.attr "disabled" button = Some (RegisterForm.ABool true) ∧
     RegisterForm.texts button = [" Registering..."%string]) ∧
    (RegisterForm.attr "disabled" button = Some (RegisterForm.ABool false) ↔
     RegisterForm.pristine p = false ∧ RegisterForm.invalid p = false ∧
     RegisterForm.submitting p = false) ∧
    (RegisterForm.attr "disabled" button = Some (RegisterForm.ABool false) →
     RegisterForm.texts button = [" Register"%string]).
Proof.
  unfold RegisterForm.render, RegisterForm.elements.
  eexists. split.
  - destruct (RegisterForm.truthy_fail_id p) as [i|]; simpl; [|reflexivity].
    destruct (String.eqb i "UsernameTakenError"); reflexivity.
  - unfold RegisterForm.texts. simpl.
    destruct (RegisterForm.pristine p), (RegisterForm.invalid p),
      (RegisterForm.submitting p); simpl; split_and!; try done;
      try (split; [intros [=]|intros (?&?&?); done]); intros [=].
Qed.

End FormFacts.

(** ** The further properties on the example wallet *)

Lemma putResource_rejects_bad_id_witness :
  isUuid wallet (params_id alice_pays_bad_id) = false ∧
  putResource wallet alice_pays_bad_id empty_wallet
  = (empty_wallet, inl InvalidUriParameterError).
Proof.
  split; [reflexivity|].
  exact (putResource_rejects_bad_id wallet alice_pays_bad_id empty_wallet eq_refl).
Defined.

Lemma putResource_unresolved_destination_witness :
  putResource wallet alice_pays_nobody empty_wallet
  = (empty_wallet, inl InvalidDestinationError).
Proof.
  exact (putResource_unresolved_destination wallet alice_pays_nobody empty_wallet
           () InvalidDestinationError eq_refl eq_refl).
Defined.

Lemma putResource_error_keeps_tables_witness :
  outcome (putResource wallet alice_pays_nobody) after_request
  = inl InvalidDestinationError ∧
  payments (world_after (putResource wallet alice_pays_nobody) after_request)
  = payments after_request.
Proof.
  split; [reflexivity|].
  exact (proj1 (putResource_error_keeps_tables wallet alice_pays_nobody after_request
                  InvalidDestinationError eq_refl)).
Defined.


Lemma putResource_notifies_stored_witness :
  outcome (putResource wallet alice_pays) empty_wallet = inr alice_paid ∧
  put_status alice_paid = Some 200%nat.
Proof.
  assert (outcome (putResource wallet alice_pays) empty_wallet = inr alice_paid)
    as Ho by reflexivity.
  split; [exact Ho|].
  exact (proj1 (putResource_notifies_stored wallet alice_pays empty_wallet
                  alice_paid Ho)).
Defined.

Lemma setup_adds_one_pending_row_witness :
  outcome (setup wallet bob_asks) empty_wallet
  = inr {| status := None; body := Some bob_request |} ∧
  ∃ written,
    payments after_request = [written] ∧ Payment.state written = Some pending.
Proof.
  split; [reflexivity|].
  destruct (setup_adds_one_pending_row wallet bob_asks empty_wallet
              {| status := None; body := Some bob_request |} bob_request
              eq_refl eq_refl)
    as (_ & u & written & _ & Hw & Hs & _).
  exists written. split; [exact Hw|exact Hs].
Defined.

Lemma requests_keep_row_identity_witness :
  ∃ p', payments (run_requests wallet busy_day wallet_with_pending) !! 0%nat
        = Some p' ∧
        same_identity pending_payment p'.
Proof.
  exact (requests_keep_row_identity wallet busy_day wallet_with_pending 0%nat
           pending_payment eq_refl).
Defined.

Lemma getHistory_limit_zero_witness :
  ∃ h, getHistory alice_history_no_limit after_payment
       = (after_payment, inr {| status := None; body := Some h |}) ∧
       totalPages h = PlusInfinity.
Proof.
  destruct (getHistory_limit_zero alice_history_no_limit after_payment eq_refl)
    as (h & Hh & _ & Ht).
  exists h. split; [exact Hh|exact Ht].
Defined.

Lemma quote_unresolved_destination_witness :
  quote wallet quote_nobody empty_wallet = (empty_wallet, inl InvalidDestinationError).
Proof.
  exact (quote_unresolved_destination wallet quote_nobody empty_wallet ()
           InvalidDestinationError eq_refl).
Defined.

Lemma send_ignores_other_properties_witness :
  SendAction.send (λ options, options)
    {| SendAction.body :=
         Some (<["username" := "mallory"]> (default ∅ (SendAction.body SendAction.send_to_bob)));
       SendAction.session_user := Some SendAction.alice_session |}
  = SendAction.send (λ options, options) SendAction.send_to_bob.
Proof.
  exact (send_ignores_other_properties (λ options, options)
           (default ∅ (SendAction.body SendAction.send_to_bob))
           (Some SendAction.alice_session) "username" "mallory"
           ltac:(discriminate) ltac:(discriminate)).
Defined.

(** * The write that is not awaited *)


Section UnawaitedFacts.
Context {X : Type} (env : Collaborators X).

(** The handler up to its answer is [put_resolves] followed by the
    lookup, the start of the write, the notification and the log line;
    the table is not written. *)
Lemma putResource_started_run (req : PutRequest) (w : World X) :
  putResource_started env req w =
  match put_resolves env req w with
  | (w1, inl e) => (w1, inl e)
  | (w1, inr (d, t)) =>
      let obj := put_dbPayment req d t (payments w1) in
      (Build_World (payments w1) (users w1)
         (events w1 ++
            [Looked_up (executionCondition t); Saved obj;
             Notified (User.username (put_user req)) (Payment.fields obj);
             Logged ("Ledger transfer payment ID " +:+ toLowerCase (params_id req))])
         (outside w1),
       inr ({| put_status := Some 200;
               put_payment :=
                 {| b_id := Some (toLowerCase (params_id req));
                    b_source_user := Some (User.id (put_user req));
                    b_destination := b_destination (put_body req);
                    b_sourceAmount := b_sourceAmount (put_body req);
                    b_destinationAmount := b_destinationAmount (put_body req);
                    b_message := b_message (put_body req) |} |}, obj))
  end.
Proof.
  unfold putResource_started, put_resolves, validateUriParameter, spsp_pay,
    Payment_findOne, socket_payment.
  run_monad.
  destruct (isUuid env (params_id req)); [|reflexivity].
  destruct (parseDestination env _ _) as [x1 [e|d]]; [reflexivity|].
  destruct (ledger_prepare env _ _) as [x2 [e|t]]; [reflexivity|]. simpl.
  destruct (ledger_fulfill env _ _) as [x3 [e|[]]]; [reflexivity|]. simpl.
  unfold put_dbPayment. rewrite <- !app_assoc. reflexivity.
Qed.

(** [putResource] is the run in which the write lands as soon as it is
    started. *)
Lemma putResource_lands_at_once (req : PutRequest) (w : World X) :
  putResource env req w =
  match putResource_started env req w with
  | (w1, inl e) => (w1, inl e)
  | (w1, inr (resp, obj)) => (lands obj w1, inr resp)
  end.
Proof.
  rewrite putResource_run, putResource_started_run.
  by destruct (put_resolves env req w) as [w1 [e|[d t]]].
Qed.

End UnawaitedFacts.


(** * The rows and the states that requests write *)

Section Writes.
Context {X : Type} (env : Collaborators X).

(** What a request has done to the table, and to which row. *)
Lemma handle_written_by (r : Request) (w : World X) :
  written_by r (payments w) (payments (handle env r w)).
Proof.
  destruct r as [r|r|r|r]; simpl.
  - by left.
  - left. apply quote_table.
  - destruct (outcome (put_resolves env r) w) as [e|[d t]] eqn:E.
    + left. by eapply putResource_failed_table.
    + right. rewrite (putResource_saved_table env r w d t E).
      exists (executionCondition t), (Payment.fields (put_dbPayment r d t (payments w))).
      split_and!; [done|done|].
      unfold put_dbPayment, Payment.save.
      destruct (Payment.findOne _ (payments w)) as [obj|] eqn:F; simpl.
      * right. apply findOne_Some_first in F as (i & -> & Hi & Hc & Hfirst).
        by exists i, (Payment.fields obj).
      * left. split; [by apply findOne_None|done].
  - unfold world_after. rewrite setup_run.
    destruct (User.findOne _ _) as [u|]; [|by left].
    destruct (createRequest env u _ _) as [x1 [e|pp]]; [by left|]. simpl.
    destruct (db_insert env _ _ _) as [x2 [e|[]]]; [by left|].
    right. by exists (setup_paymentObj r u pp).
Qed.

Lemma written_by_no_new_failed r (before after : list Payment.t) i p' :
  written_by r before after →
  after !! i = Some p' → Payment.state p' = Some failed →
  before !! i = Some p'.
Proof.
  assert (∀ p : Payment.t, Payment.state p ≠ Some failed →
            (before ++ [p]) !! i = Some p' → Payment.state p' = Some failed →
            before !! i = Some p') as Hadd.
  { intros p Hp Hi Hf. apply lookup_app_Some in Hi as [Hi|[_ Hi]]; [done|].
    destruct (i - length before)%nat; simpl in Hi; [|done]. congruence. }
  intros [->|Hw] Hi Hf; [done|]. destruct r as [r|r|r|r]; try done.
  - destruct Hw as (c & p & Hs & _ & [[_ ->]|(k & old & Hk & _ & _ & ->)]).
    + eapply Hadd; [|done..]. congruence.
    + destruct (decide (k = i)) as [->|Hne].
      * rewrite list_lookup_insert_eq in Hi by (by eapply lookup_lt_Some). congruence.
      * by rewrite list_lookup_insert_ne in Hi.
  - destruct Hw as (p & -> & Hs). eapply Hadd; [|done..]. congruence.
Qed.

(** C2, as the code has it.  A request that writes a Payment row either
    adds a row, in pending (request-setup) or in success (execution, no
    row of the transfer's condition), or puts a row in success in the
    place of the first row of the transfer's condition, whatever state
    that row was in.  Success is terminal: through any sequence of
    requests a row in success stays in success.  No request writes
    failed: a row that is in failed afterwards is a row that was there,
    unchanged.  And failed is not protected: an execution that goes
    through sets the first row of its transfer's condition to success
    from any state, failed included. *)
Theorem success_is_terminal (rs : list Request) (w : World X) :
  (∀ r, writes_success_or_new_pending (payments w) (payments (handle env r w))) ∧
  (∀ i p, payments w !! i = Some p → Payment.state p = Some success →
     ∃ p', payments (run_requests env rs w) !! i = Some p' ∧
           Payment.state p' = Some success) ∧
  (∀ r, written_by r (payments w) (payments (handle env r w))) ∧
  (∀ r i p', payments (handle env r w) !! i = Some p' →
     Payment.state p' = Some failed → payments w !! i = Some p') ∧
  (∀ req d t i old,
     outcome (put_resolves env req) w = inr (d, t) →
     payments w !! i = Some old →
     Payment.has_condition (executionCondition t) old →
     Payment.rows_with (executionCondition t) (take i (payments w)) = 0%nat →
     ∃ p', payments (world_after (putResource env req) w) = <[i := p']> (payments w) ∧
           Payment.state p' = Some success).
Proof.
  split_and!.
  - intros r. apply handle_states.
  - revert w. induction rs as [|r rs IH]; intros w i p Hi Hs; simpl; [eauto|].
    destruct (handle_states env r w) as [Hold _].
    destruct (Hold i p Hi) as (p' & Hi' & Hs').
    apply (IH _ i p' Hi'). destruct Hs' as [->| ->]; done.
  - intros r. apply handle_written_by.
  - intros r i p'. apply (written_by_no_new_failed r), handle_written_by.
  - intros req d t i old E Hi Hc Hfirst.
    rewrite (putResource_saved_table env req w d t E).
    unfold put_dbPayment. rewrite (findOne_first _ _ i old Hi Hc Hfirst).
    eexists. split; reflexivity.
Qed.
End Writes.

Lemma success_is_terminal_witness :
  (∃ p', payments (run_requests wallet [PutPayment alice_pays; PostReceiver bob_asks]
                     after_payment) !! 0%nat = Some p' ∧
         Payment.state p' = Some success) ∧
  (∃ p', payments (world_after (putResource wallet alice_pays) wallet_with_failed)
         = [p'] ∧ Payment.state p' = Some success).
Proof.
  destruct (success_is_terminal wallet [PutPayment alice_pays; PostReceiver bob_asks]
              after_payment) as (_ & H & _).
  destruct (success_is_terminal wallet [] wallet_with_failed) as (_ & _ & _ & _ & H').
  split.
  - eapply (H 0%nat); reflexivity.
  - exact (H' alice_pays
              {| dtype := LOCAL; accountUri := account_of "bob";
                 ledgerHost := "wallet.example" |}
              {| uuid := "3d4c9c8e-204a-4213-9e91-88b64dad8604";
                 executionCondition := bob_condition |}
              0%nat failed_payment eq_refl eq_refl eq_refl eq_refl).
Defined.

(** C8: with the limit 0 the handler answers, with no row, and its number
    of pages is not the ceiling of a quotient: it is Infinity. *)
Lemma history_pages_at_limit_zero :
  ∃ h, getHistory alice_history_no_limit after_payment
       = (after_payment, inr {| status := None; body := Some h |}) ∧
       history_list h = [] ∧
       totalPages h = PlusInfinity ∧
       ∀ count, ¬ is_ceiling_of (totalPages h) count (limit alice_history_no_limit).
Proof.
  eexists. split_and!; [vm_compute; reflexivity|reflexivity..|].
  intros count (t & Ht & _). discriminate Ht.
Qed.
